(** * r2-webdav-deploy: a read-only HTTP gateway in front of an R2 bucket

    Shallow embedding of [src/index.ts] and the properties of its
    range arithmetic, paginated listing, directory page and dispatcher.

    Conventions of the embedding:
    - JavaScript numbers that hold byte counts and offsets are integers
      ([Z]); none of the arithmetic below leaves the integers.
    - an optional property ([undefined] or missing) is an [option];
      [a ?? b] is [default b a];
    - the bucket is the environment: its [list] and [get] methods answer
      as a function of their arguments and of the calls made before, and
      may reject (a store failure); every call is appended to a log, so
      that the store traffic of a handler can be stated;
    - [await] is sequencing in the [IO] monad below; the [do ... while]
      of [listAll] is a recursion on fuel. *)

From Stdlib Require Import ZArith String Ascii List Lia Bool.
From stdpp Require Import base option list strings gmap pretty.
Import ListNotations.

Local Open Scope Z_scope.
Local Open Scope string_scope.

(** ** JavaScript string primitives used by the source *)

Module JS.

(** [s.slice(n)] for [0 <= n]. *)
Fixpoint slice_from (n : nat) (s : string) : string :=
  match n, s with
  | O, _ => s
  | S _, EmptyString => EmptyString
  | S n', String _ s' => slice_from n' s'
  end.

(** [s.slice(0, -1)]: everything but the last character. *)
Fixpoint slice_but_last (s : string) : string :=
  match s with
  | EmptyString => EmptyString
  | String c EmptyString => EmptyString
  | String c s' => String c (slice_but_last s')
  end.

(** [s.startsWith(p)]. *)
Definition startsWith (s p : string) : bool := String.prefix p s.

(** [s.endsWith(p)]. *)
Definition endsWith (s p : string) : bool :=
  String.prefix (String.rev p) (String.rev s).

(** [a === b] on strings. *)
Definition str_eq (a b : string) : bool := String.eqb a b.

(** Truthiness of an optional string: [undefined] and [''] are falsy. *)
Definition truthy (o : option string) : bool :=
  match o with
  | None => false
  | Some s => negb (String.eqb s "")
  end.

(** [list.join(sep)]. *)
Fixpoint join (sep : string) (l : list string) : string :=
  match l with
  | [] => ""
  | [x] => x
  | x :: rest => x ++ sep ++ join sep rest
  end.

(** [n.toString()] and template interpolation of an integer. *)
Definition num_to_string (n : Z) : string := pretty n.

End JS.

(** ** URLs

    [request.url] is the serialised URL of the request.  [new URL(u).pathname]
    is recovered from it: the part after the authority up to the first
    [?] or [#] (for http and https an empty path reads [/]). *)

Module URL.

Definition is_path_start (c : ascii) : bool :=
  (Ascii.eqb c "/" || Ascii.eqb c "?" || Ascii.eqb c "#")%bool.

Definition is_path_end (c : ascii) : bool :=
  (Ascii.eqb c "?" || Ascii.eqb c "#")%bool.

Fixpoint drop_until (stop : ascii -> bool) (s : string) : string :=
  match s with
  | EmptyString => EmptyString
  | String c s' => if stop c then s else drop_until stop s'
  end.

Fixpoint take_until (stop : ascii -> bool) (s : string) : string :=
  match s with
  | EmptyString => EmptyString
  | String c s' => if stop c then EmptyString else String c (take_until stop s')
  end.

Definition after_scheme (url : string) : string :=
  match String.index 0 "://" url with
  | Some i => JS.slice_from (i + 3) url
  | None => url
  end.

Definition pathname (url : string) : string :=
  let p := take_until is_path_end (drop_until is_path_start (after_scheme url)) in
  if String.eqb p "" then "/" else p.

End URL.

(** ** Data model: the R2 types the source reads *)

(** A [Date], seen through the only method the source calls on it. *)
Record Date := { toISOString : string }.

Record R2HTTPMetadata := {
  contentType : option string;
  contentLanguage : option string;
  contentDisposition : option string;
  contentEncoding : option string;
  cacheControl : option string;
  cacheExpiry : option Date;
}.

(** [R2Range]: [{offset, length?}] and [{offset?, length}] share the second
    constructor; [{suffix}] is told apart by ['suffix' in range]. *)
Inductive R2Range :=
| RangeSuffix (suffix : Z)
| RangeOffsetLength (offset : option Z) (length : option Z).

(** [R2Object] and [R2ObjectBody] in one record: [body] is [None] when the
    object has no [body] property. *)
Record R2Object := {
  key : string;
  size : Z;
  httpMetadata : option R2HTTPMetadata;
  customMetadata : option (gmap string string);
  range : option R2Range;
  body : option string;
}.

(** One page of [bucket.list]. *)
Record R2Objects := {
  objects : list R2Object;
  truncated : bool;
  cursor : option string;
}.

Record R2ListOptions := {
  opt_prefix : string;
  opt_delimiter : option string;
  opt_cursor : option string;
  opt_include : list string;
}.

Definition Headers := list (string * string).

Record R2GetOptions := {
  onlyIf : Headers;
  opt_range : Headers;
}.

Record Request := {
  method : string;
  url : string;
  headers : Headers;
}.

Record Response := {
  resp_body : option string;
  status : Z;
  statusText : string;
  resp_headers : Headers;
}.

(** ** The Range Resolver *)

Record ContentRange := { rangeOffset : Z; rangeEnd : Z }.

Definition calcContentRange (object : R2Object) : ContentRange :=
  let rangeOffset0 := 0 in
  let rangeEnd0 := size object - 1 in
  match range object with
  | Some (RangeSuffix suffix) =>
      {| rangeOffset := size object - suffix; rangeEnd := rangeEnd0 |}
  | Some (RangeOffsetLength offset len) =>
      let rangeOffset1 := default 0 offset in
      let length := default (size object - rangeOffset1) len in
      {| rangeOffset := rangeOffset1;
         rangeEnd := Z.min (rangeOffset1 + length - 1) (size object - 1) |}
  | None => {| rangeOffset := rangeOffset0; rangeEnd := rangeEnd0 |}
  end.

(** ** The bucket and the effects of a handler *)

Inductive StoreCall :=
| CallList (options : R2ListOptions)
| CallGet (k : string) (options : R2GetOptions).

(** The two bucket methods the source calls.  A reply may depend on the
    calls made so far (the first argument) as well as on the arguments of
    the call.  [None] is a rejected promise (the store failed); [get]
    answers [Some None] for JavaScript [null]. *)
Record R2Bucket := {
  list_reply : list StoreCall -> R2ListOptions -> option R2Objects;
  get_reply : list StoreCall -> string -> R2GetOptions -> option (option R2Object);
}.

Record Env := { bucket : R2Bucket }.

(** What running an async function on a log of earlier store calls gives:
    a value, an uncaught rejection, or an exhausted loop budget. *)
Inductive Outcome (A : Type) :=
| Returned (a : A) (log : list StoreCall)
| Threw (log : list StoreCall)
| OutOfFuel.
Arguments Returned {A} a log.
Arguments Threw {A} log.
Arguments OutOfFuel {A}.

Definition IO (A : Type) : Type := list StoreCall -> Outcome A.

#[global] Instance IO_ret : MRet IO := fun A a log => Returned a log.

#[global] Instance IO_bind : MBind IO := fun A B k m log =>
  match m log with
  | Returned a log' => k a log'
  | Threw log' => Threw log'
  | OutOfFuel => OutOfFuel
  end.

#[global] Instance IO_fmap : FMap IO := fun A B f m log =>
  match m log with
  | Returned a log' => Returned (f a) log'
  | Threw log' => Threw log'
  | OutOfFuel => OutOfFuel
  end.

Definition out_of_fuel {A} : IO A := fun _ => OutOfFuel.

(** [await bucket.list(options)]. *)
Definition bucket_list (b : R2Bucket) (options : R2ListOptions) : IO R2Objects :=
  fun log =>
    match list_reply b log options with
    | Some page => Returned page (log ++ [CallList options])
    | None => Threw (log ++ [CallList options])
    end.

(** [await bucket.get(key, options)]. *)
Definition bucket_get (b : R2Bucket) (k : string) (options : R2GetOptions)
  : IO (option R2Object) :=
  fun log =>
    match get_reply b log k options with
    | Some r => Returned r (log ++ [CallGet k options])
    | None => Threw (log ++ [CallGet k options])
    end.

(** ** The Prefix Enumerator

    [listAll_from] is one run of the [do ... while] body with the current
    value of the variable [cursor]; the objects are collected in the order
    they are yielded.  The only consumer, [handle_get], never leaves its
    [for await] early, so the generator is always run to its end. *)
Fixpoint listAll_from (fuel : nat) (b : R2Bucket) (prefix : string)
    (isRecursive : bool) (cur : option string) : IO (list R2Object) :=
  match fuel with
  | O => out_of_fuel
  | S fuel' =>
      r2_objects ← bucket_list b {|
        opt_prefix := prefix;
        opt_delimiter := if isRecursive then None else Some "/";
        opt_cursor := cur;
        opt_include := ["httpMetadata"; "customMetadata"] |};
      let yielded := objects r2_objects in
      let cur' := if truncated r2_objects then cursor r2_objects else cur in
      if truncated r2_objects
      then rest ← listAll_from fuel' b prefix isRecursive cur';
           mret (yielded ++ rest)%list
      else mret yielded
  end.

Definition listAll (fuel : nat) (b : R2Bucket) (prefix : string)
    (isRecursive : bool) : IO (list R2Object) :=
  listAll_from fuel b prefix isRecursive None.

(** ** The handlers *)

Definition make_resource_path (request : Request) : string :=
  let path := JS.slice_from 1 (URL.pathname (url request)) in
  if JS.endsWith path "/" then JS.slice_but_last path else path.

(** The double quote character of the HTML templates. *)
Definition dq : string := String "034"%char EmptyString.

Definition parent_link : string :=
  "<a href=" ++ dq ++ "../" ++ dq ++ ">..</a><br>".

(** [object.customMetadata?.resourcetype === '<collection />']. *)
Definition is_collection (object : R2Object) : bool :=
  match customMetadata object ≫= (fun m => m !! "resourcetype") with
  | Some v => JS.str_eq v "<collection />"
  | None => false
  end.

(** One pass through the body of the [for await] loop of [handle_get]:
    the new value of [page]. *)
Definition page_step (resource_path prefix : string) (page : string)
    (object : R2Object) : string :=
  if JS.str_eq (key object) resource_path then page
  else
    let href := "/" ++ key object ++ (if is_collection object then "/" else "") in
    page ++ "<a href=" ++ dq ++ href ++ dq ++ ">"
         ++ default (JS.slice_from (String.length prefix) (key object))
                    (httpMetadata object ≫= contentDisposition)
         ++ "</a><br>".

Definition pageSource (page : string) : string :=
  "<!DOCTYPE html><html lang=" ++ dq ++ "en" ++ dq ++ "><head><meta charset="
  ++ dq ++ "UTF-8" ++ dq ++ "><meta name=" ++ dq ++ "viewport" ++ dq
  ++ " content=" ++ dq ++ "width=device-width,initial-scale=1.0" ++ dq
  ++ "><title>R2Storage</title><style>*{box-sizing:border-box;}body{padding:10px;font-family:'Segoe UI','Circular','Roboto','Lato','Helvetica Neue','Arial Rounded MT Bold','sans-serif';}a{display:inline-block;width:100%;color:#000;text-decoration:none;padding:5px 10px;cursor:pointer;border-radius:5px;}a:hover{background-color:#60C590;color:white;}a[href="
  ++ dq ++ "../" ++ dq
  ++ "]{background-color:#cbd5e1;}</style></head><body><h1>R2 Storage</h1><div>"
  ++ page ++ "</div></body></html>".

(** The spread of an optional header: present when the value is truthy. *)
Definition optional_header (name : string) (value : option string) : Headers :=
  if JS.truthy value then [(name, default "" value)] else [].

Definition handle_get (fuel : nat) (request : Request) (b : R2Bucket)
  : IO Response :=
  let resource_path := make_resource_path request in
  if JS.endsWith (url request) "/" then
    let '(page, prefix) :=
      if negb (JS.str_eq resource_path "")
      then ("" ++ parent_link, resource_path ++ "/")
      else ("", resource_path) in
    yielded ← listAll fuel b prefix false;
    let page := fold_left (page_step resource_path prefix) yielded page in
    mret {| resp_body := Some (pageSource page);
            status := 200;
            statusText := "";
            resp_headers := [("Content-Type", "text/html; charset=utf-8")] |}
  else
    object ← bucket_get b resource_path
      {| onlyIf := headers request; opt_range := headers request |};
    match object with
    | None =>
        mret {| resp_body := Some "Not Found"; status := 404;
                statusText := ""; resp_headers := [] |}
    | Some object =>
        match body object with
        | None =>
            mret {| resp_body := Some "Precondition Failed"; status := 412;
                    statusText := ""; resp_headers := [] |}
        | Some stream =>
            let r := calcContentRange object in
            let contentLength := rangeEnd r - rangeOffset r + 1 in
            let meta := httpMetadata object in
            mret {|
              resp_body := Some stream;
              status :=
                if (bool_decide (is_Some (range object))
                    && negb (Z.eqb contentLength (size object)))%bool
                then 206 else 200;
              statusText := "";
              resp_headers :=
                ([("Content-Type",
                  default "application/octet-stream" (meta ≫= contentType));
                 ("Content-Length", JS.num_to_string contentLength);
                 ("Content-Range",
                  ("bytes " ++ JS.num_to_string (rangeOffset r) ++ "-"
                   ++ JS.num_to_string (rangeEnd r) ++ "/"
                   ++ JS.num_to_string (size object))%string)]
                 ++ optional_header "Content-Disposition" (meta ≫= contentDisposition)
                 ++ optional_header "Content-Encoding" (meta ≫= contentEncoding)
                 ++ optional_header "Content-Language" (meta ≫= contentLanguage)
                 ++ optional_header "Cache-Control" (meta ≫= cacheControl)
                 ++ match meta ≫= cacheExpiry with
                    | Some d => [("Cache-Expiry", toISOString d)]
                    | None => []
                    end)%list |}
        end
    end.

(** [new Response(null, {status, statusText, headers})] from a response. *)
Definition without_body (response : Response) : Response :=
  {| resp_body := None;
     status := status response;
     statusText := statusText response;
     resp_headers := resp_headers response |}.

Definition handle_head (fuel : nat) (request : Request) (b : R2Bucket)
  : IO Response :=
  response ← handle_get fuel request b;
  mret (without_body response).

Definition SUPPORT_METHODS : list string := ["OPTIONS"; "GET"; "HEAD"].

Definition dispatch_handler (fuel : nat) (request : Request) (b : R2Bucket)
  : IO Response :=
  if JS.str_eq (method request) "OPTIONS" then
    mret {| resp_body := None; status := 204; statusText := "";
            resp_headers := [("Allow", JS.join ", " SUPPORT_METHODS)] |}
  else if JS.str_eq (method request) "HEAD" then
    handle_head fuel request b
  else if JS.str_eq (method request) "GET" then
    handle_get fuel request b
  else
    mret {| resp_body := Some "Method Not Allowed"; status := 405;
            statusText := "";
            resp_headers := [("Allow", JS.join ", " SUPPORT_METHODS)] |}.

Definition is_public_path (pathname : string) : bool :=
  (JS.startsWith pathname "/public/" || JS.str_eq pathname "/public")%bool.

Definition fetch (fuel : nat) (request : Request) (env : Env) : IO Response :=
  let b := bucket env in
  let pathname := URL.pathname (url request) in
  if negb (is_public_path pathname) then
    mret {| resp_body := Some "Unauthorized"; status := 401;
            statusText := ""; resp_headers := [] |}
  else
    response ← dispatch_handler fuel request b;
    mret response.

(** ** Specification-side definitions *)

(** The reference Range Resolver, written after the specification: no range
    gives the whole object, a suffix range the last [k] bytes, an
    offset/length range a window whose end is capped at the last byte. *)
Definition reference_range (S : Z) (requested : option R2Range) : Z * Z :=
  match requested with
  | None => (0, S - 1)
  | Some (RangeSuffix k) => (S - k, S - 1)
  | Some (RangeOffsetLength offset len) =>
      let start := default 0 offset in
      (start, Z.min (start + default (S - start) len - 1) (S - 1))
  end.

(** The contract the specification states for the resolver's output. *)
Definition within_bounds (S : Z) (r : ContentRange) : Prop :=
  0 <= rangeOffset r /\ rangeOffset r <= rangeEnd r
  /\ rangeEnd r <= Z.max (S - 1) 0.

(** The requests for which that contract is met: a non-empty object and a
    window that starts inside it and is at least one byte long. *)
Definition window_inside (S : Z) (requested : option R2Range) : Prop :=
  1 <= S /\
  match requested with
  | None => True
  | Some (RangeSuffix k) => 1 <= k <= S
  | Some (RangeOffsetLength offset len) =>
      0 <= default 0 offset <= S - 1 /\ (forall n, len = Some n -> 1 <= n)
  end.

(** The options [handle_get] passes to [bucket.get]. *)
Definition get_options (request : Request) : R2GetOptions :=
  {| onlyIf := headers request; opt_range := headers request |}.

(** The options of one [bucket.list] call of [listAll]. *)
Definition list_options (prefix : string) (isRecursive : bool)
    (cur : option string) : R2ListOptions :=
  {| opt_prefix := prefix;
     opt_delimiter := if isRecursive then None else Some "/";
     opt_cursor := cur;
     opt_include := ["httpMetadata"; "customMetadata"] |}.

(** The pages the store answers when a listing is followed from the cursor
    [cur] after the calls in [log]: every page is the reply to the call
    that carries the cursor of the page before it. *)
Fixpoint served (b : R2Bucket) (prefix : string) (isRecursive : bool)
    (log : list StoreCall) (cur : option string) (pages : list R2Objects)
  : Prop :=
  match pages with
  | [] => True
  | page :: rest =>
      list_reply b log (list_options prefix isRecursive cur) = Some page
      /\ served b prefix isRecursive
           (log ++ [CallList (list_options prefix isRecursive cur)])
           (cursor page) rest
  end.

(** A scripted store: its n-th call, whatever it asks, is answered with the
    n-th page of the script, and rejected once the script has run out. *)
Definition scripted (script : list R2Objects) : R2Bucket :=
  {| list_reply := fun log _ => script !! List.length log;
     get_reply := fun _ _ _ => None |}.

(** The [bucket.list] calls that fetch [pages] one after the other, the
    first with the cursor [cur]. *)
Definition list_calls (prefix : string) (isRecursive : bool)
    (cur : option string) (pages : list R2Objects) : list StoreCall :=
  map (fun c => CallList (list_options prefix isRecursive c))
      (cur :: map cursor (removelast pages)).

(** A link of the directory page and its HTML. *)
Record Link := { href : string; text : string }.

Definition render_link (l : Link) : string :=
  "<a href=" ++ dq ++ href l ++ dq ++ ">" ++ text l ++ "</a><br>".

Definition entry_link (prefix : string) (entry : R2Object) : Link :=
  {| href := "/" ++ key entry ++ (if is_collection entry then "/" else "");
     text := default (JS.slice_from (String.length prefix) (key entry))
                     (httpMetadata entry ≫= contentDisposition) |}.

Definition concat_strings (l : list string) : string :=
  fold_right String.append "" l.

(** The prefix a directory request lists, and the start of its page. *)
Definition directory_prefix (request : Request) : string :=
  let resource_path := make_resource_path request in
  if String.eqb resource_path "" then "" else resource_path ++ "/".

Definition directory_head (request : Request) : string :=
  if String.eqb (make_resource_path request) "" then "" else parent_link.

Definition html_response (page : string) : Response :=
  {| resp_body := Some (pageSource page); status := 200; statusText := "";
     resp_headers := [("Content-Type", "text/html; charset=utf-8")] |}.

Definition with_method (m : string) (request : Request) : Request :=
  {| method := m; url := url request; headers := headers request |}.

(** ** Fixtures: small objects, buckets and requests *)

Module Fixtures.

Definition file (k : string) (sz : Z) : R2Object :=
  {| key := k; size := sz; httpMetadata := None; customMetadata := None;
     range := None; body := None |}.

Definition collection (k : string) : R2Object :=
  {| key := k; size := 0; httpMetadata := None;
     customMetadata := Some {[ "resourcetype" := "<collection />" ]};
     range := None; body := None |}.

Definition fetched (k : string) (sz : Z) (r : option R2Range) (data : string)
  : R2Object :=
  {| key := k; size := sz; httpMetadata := None; customMetadata := None;
     range := r; body := Some data |}.

Definition get_request (u : string) : Request :=
  {| method := "GET"; url := u; headers := [] |}.

(** A bucket whose listing of any prefix comes in two pages, and that
    holds one 100-byte object, one object that fails every precondition
    and nothing else. *)
Definition page1 : R2Objects :=
  {| objects := [file "public/a.txt" 3; collection "public/b"];
     truncated := true; cursor := Some "c1" |}.

Definition page2 : R2Objects :=
  {| objects := [file "public" 0; file "public/z.bin" 7];
     truncated := false; cursor := None |}.

Definition two_pages : R2Bucket :=
  {| list_reply := fun _ o =>
       match opt_cursor o with
       | None => Some page1
       | Some c => if String.eqb c "c1" then Some page2 else None
       end;
     get_reply := fun _ k o =>
       if String.eqb k "public/a.txt"
       then Some (Some (fetched k 100
                          (Some (RangeOffsetLength (Some 0) (Some 100))) "abc"))
       else if String.eqb k "public/stale"
       then Some (Some (file k 100))
       else Some None |}.

(** A bucket with nothing under any prefix. *)
Definition empty_bucket : R2Bucket :=
  {| list_reply := fun _ _ =>
       Some {| objects := []; truncated := false; cursor := None |};
     get_reply := fun _ _ _ => Some None |}.

End Fixtures.

(** ** Unfolding the effects *)

Ltac run_io :=
  unfold mbind, IO_bind, mret, IO_ret, bucket_get, bucket_list, out_of_fuel;
  cbn beta iota.

(** ** Definitions for the further properties *)

(** The store calls on record when a run ends, if it ends. *)
Definition log_of {A : Type} (o : Outcome A) : option (list StoreCall) :=
  match o with
  | Returned _ l => Some l
  | Threw l => Some l
  | OutOfFuel => None
  end.

(** A [bucket.list] call of [listAll prefix isRecursive], whatever its
    cursor. *)
Definition is_listing_call (prefix : string) (isRecursive : bool)
    (c : StoreCall) : Prop :=
  exists cur, c = CallList (list_options prefix isRecursive cur).

(** The store answers the listing followed from [cur] with the truncated
    [pages] and then rejects the next call. *)
Fixpoint rejected_after (b : R2Bucket) (prefix : string) (isRecursive : bool)
    (log : list StoreCall) (cur : option string) (pages : list R2Objects)
  : Prop :=
  match pages with
  | [] => list_reply b log (list_options prefix isRecursive cur) = None
  | page :: rest =>
      list_reply b log (list_options prefix isRecursive cur) = Some page
      /\ truncated page = true
      /\ rejected_after b prefix isRecursive
           (log ++ [CallList (list_options prefix isRecursive cur)])
           (cursor page) rest
  end.

(** Keys of the public folder, and the store calls that stay inside it. *)
Definition under_public (k : string) : Prop :=
  k = "public" \/ JS.startsWith k "public/" = true.

Definition reads_public (c : StoreCall) : Prop :=
  match c with
  | CallGet k _ => under_public k
  | CallList options => JS.startsWith (opt_prefix options) "public/" = true
  end.

(** The status codes the gateway answers with. *)
Definition gateway_statuses : list Z := [200; 204; 206; 401; 404; 405; 412].

(** The headers [handle_get] puts on the response to a fetched object. *)
Definition object_headers (object : R2Object) : Headers :=
  let r := calcContentRange object in
  let meta := httpMetadata object in
  ([("Content-Type", default "application/octet-stream" (meta ≫= contentType));
    ("Content-Length", JS.num_to_string (rangeEnd r - rangeOffset r + 1));
    ("Content-Range",
     ("bytes " ++ JS.num_to_string (rangeOffset r) ++ "-"
      ++ JS.num_to_string (rangeEnd r) ++ "/"
      ++ JS.num_to_string (size object))%string)]
   ++ optional_header "Content-Disposition" (meta ≫= contentDisposition)
   ++ optional_header "Content-Encoding" (meta ≫= contentEncoding)
   ++ optional_header "Content-Language" (meta ≫= contentLanguage)
   ++ optional_header "Cache-Control" (meta ≫= cacheControl)
   ++ match meta ≫= cacheExpiry with
      | Some d => [("Cache-Expiry", toISOString d)]
      | None => []
      end)%list.

(** When a header [name: v] is due on the response to a fetched object:
    three headers always, the others when the metadata has a value for
    them and that value is not the empty string. *)
Definition header_due (object : R2Object) (name v : string) : Prop :=
  let r := calcContentRange object in
  let meta := httpMetadata object in
  (name = "Content-Type"
   /\ v = default "application/octet-stream" (meta ≫= contentType))
  \/ (name = "Content-Length"
      /\ v = JS.num_to_string (rangeEnd r - rangeOffset r + 1))
  \/ (name = "Content-Range"
      /\ v = "bytes " ++ JS.num_to_string (rangeOffset r) ++ "-"
             ++ JS.num_to_string (rangeEnd r) ++ "/"
             ++ JS.num_to_string (size object))
  \/ (name = "Content-Disposition"
      /\ meta ≫= contentDisposition = Some v /\ v <> "")
  \/ (name = "Content-Encoding"
      /\ meta ≫= contentEncoding = Some v /\ v <> "")
  \/ (name = "Content-Language"
      /\ meta ≫= contentLanguage = Some v /\ v <> "")
  \/ (name = "Cache-Control"
      /\ meta ≫= cacheControl = Some v /\ v <> "")
  \/ (name = "Cache-Expiry"
      /\ exists d, meta ≫= cacheExpiry = Some d /\ v = toISOString d).

(** The fixed responses of the gate and of the dispatcher. *)
Definition unauthorized : Response :=
  {| resp_body := Some "Unauthorized"; status := 401;
     statusText := ""; resp_headers := [] |}.

Definition options_response : Response :=
  {| resp_body := None; status := 204; statusText := "";
     resp_headers := [("Allow", "OPTIONS, GET, HEAD")] |}.

Definition method_not_allowed : Response :=
  {| resp_body := Some "Method Not Allowed"; status := 405; statusText := "";
     resp_headers := [("Allow", "OPTIONS, GET, HEAD")] |}.

(** ** The object fetch: the outcomes of [handle_get] *)

Section ObjectBranch.

Variables (fuel : nat) (request : Request) (b : R2Bucket) (log : list StoreCall).
Hypothesis not_directory : JS.endsWith (url request) "/" = false.

Lemma handle_get_store_failure :
  get_reply b log (make_resource_path request) (get_options request) = None ->
  handle_get fuel request b log
  = Threw (log ++ [CallGet (make_resource_path request) (get_options request)]).
Proof.
  intros Hget. unfold handle_get. rewrite not_directory. run_io.
  fold (get_options request). now rewrite Hget.
Qed.

Lemma handle_get_missing :
  get_reply b log (make_resource_path request) (get_options request) = Some None ->
  handle_get fuel request b log =
  Returned {| resp_body := Some "Not Found"; status := 404;
              statusText := ""; resp_headers := [] |}
           (log ++ [CallGet (make_resource_path request) (get_options request)]).
Proof.
  intros Hget. unfold handle_get. rewrite not_directory. run_io.
  fold (get_options request). now rewrite Hget.
Qed.

Lemma handle_get_bodyless object :
  get_reply b log (make_resource_path request) (get_options request)
    = Some (Some object) ->
  body object = None ->
  handle_get fuel request b log =
  Returned {| resp_body := Some "Precondition Failed"; status := 412;
              statusText := ""; resp_headers := [] |}
           (log ++ [CallGet (make_resource_path request) (get_options request)]).
Proof.
  intros Hget Hbody. unfold handle_get. rewrite not_directory. run_io.
  fold (get_options request). now rewrite Hget, Hbody.
Qed.

Lemma handle_get_found object stream :
  get_reply b log (make_resource_path request) (get_options request)
    = Some (Some object) ->
  body object = Some stream ->
  exists response,
    handle_get fuel request b log
    = Returned response (log ++ [CallGet (make_resource_path request) (get_options request)])
    /\ resp_body response = Some stream
    /\ status response =
       (if (bool_decide (is_Some (range object))
            && negb (Z.eqb (rangeEnd (calcContentRange object)
                            - rangeOffset (calcContentRange object) + 1)
                           (size object)))%bool
        then 206 else 200).
Proof.
  intros Hget Hbody. unfold handle_get. rewrite not_directory. run_io.
  fold (get_options request). rewrite Hget, Hbody.
  eexists. split; [reflexivity|]. split; reflexivity.
Qed.

End ObjectBranch.

(** ** The Range Resolver: theorems *)

Section RangeResolver.

Variable object : R2Object.

Lemma resolved_absent :
  range object = None ->
  calcContentRange object = {| rangeOffset := 0; rangeEnd := size object - 1 |}.
Proof. unfold calcContentRange. now intros ->. Qed.

Lemma resolved_suffix k :
  range object = Some (RangeSuffix k) ->
  calcContentRange object
  = {| rangeOffset := size object - k; rangeEnd := size object - 1 |}.
Proof. unfold calcContentRange. now intros ->. Qed.

Lemma resolved_window offset len :
  range object = Some (RangeOffsetLength offset len) ->
  calcContentRange object =
  {| rangeOffset := default 0 offset;
     rangeEnd := Z.min (default 0 offset
                        + default (size object - default 0 offset) len - 1)
                       (size object - 1) |}.
Proof. unfold calcContentRange. now intros ->. Qed.

End RangeResolver.

(** C2. For every object of non-negative size [S], [calcContentRange] is the
    reference resolver: [(0, S-1)] without a range, [(S-k, S-1)] for a suffix
    range of [k <= S] bytes, and for an offset/length range the offset
    [offset ?? 0] with the end
    [min (rangeOffset + (length ?? (S - rangeOffset)) - 1) (S - 1)]. *)
Theorem calcContentRange_is_reference (object : R2Object) :
  0 <= size object ->
  (forall k, range object = Some (RangeSuffix k) -> k <= size object) ->
  (rangeOffset (calcContentRange object), rangeEnd (calcContentRange object))
  = reference_range (size object) (range object).
Proof.
  intros _ _. unfold reference_range.
  destruct (range object) as [[k|offset len]|] eqn:Hrange.
  - now rewrite (resolved_suffix object k Hrange).
  - now rewrite (resolved_window object offset len Hrange).
  - now rewrite (resolved_absent object Hrange).
Qed.

Lemma calcContentRange_is_reference_witness :
  let o := Fixtures.fetched "k" 100 (Some (RangeSuffix 30)) "" in
  (rangeOffset (calcContentRange o), rangeEnd (calcContentRange o)) = (70, 99).
Proof.
  intros o.
  apply (calcContentRange_is_reference o).
  - simpl. lia.
  - intros k Hk. injection Hk as <-. simpl. lia.
Defined.

(** C3, as amended. For every object of non-negative size [S] the output of
    [calcContentRange] satisfies
    [0 <= rangeOffset <= rangeEnd <= max (S-1) 0] exactly when [S >= 1] and
    the range is absent, a suffix with [1 <= suffix <= S], or an
    offset/length range with [0 <= offset ?? 0 <= S-1] and a length, when
    given, of at least 1.  The offset is never clamped: a suffix larger
    than [S] resolves to the negative offset [S - suffix]. *)
Theorem calcContentRange_bounds (object : R2Object) :
  0 <= size object ->
  (within_bounds (size object) (calcContentRange object)
   <-> window_inside (size object) (range object))
  /\ (forall k, range object = Some (RangeSuffix k) -> size object < k ->
      rangeOffset (calcContentRange object) = size object - k
      /\ rangeOffset (calcContentRange object) < 0).
Proof.
  intros Hsize. unfold within_bounds, window_inside. split.
  - destruct (range object) as [[k|offset len]|] eqn:Hrange.
    + rewrite (resolved_suffix object k Hrange). simpl. lia.
    + rewrite (resolved_window object offset len Hrange). simpl.
      destruct len as [n|]; simpl.
      * split.
        -- intros (H0 & H1 & H2). repeat split; try lia.
           intros m [= <-]. lia.
        -- intros (HS & Hoff & Hlen). specialize (Hlen n eq_refl). lia.
      * split.
        -- intros (H0 & H1 & H2). repeat split; try lia. intros m [=].
        -- intros (HS & Hoff & _). lia.
    + rewrite (resolved_absent object Hrange). simpl. lia.
  - intros k Hrange Hk. rewrite (resolved_suffix object k Hrange). simpl. lia.
Qed.

Lemma calcContentRange_bounds_witness :
  let o := Fixtures.fetched "k" 100 (Some (RangeOffsetLength (Some 10) (Some 500))) "" in
  within_bounds 100 (calcContentRange o).
Proof.
  intros o.
  apply (proj1 (calcContentRange_bounds o ltac:(simpl; lia))).
  unfold window_inside. simpl. repeat split; try lia.
  intros n [= <-]. lia.
Defined.

(** C3 as stated fails: a suffix range of 200 bytes on a 100-byte object
    resolves to the offset -100, below 0. *)
Lemma calcContentRange_suffix_not_clamped :
  let o := Fixtures.fetched "k" 100 (Some (RangeSuffix 200)) "" in
  calcContentRange o = {| rangeOffset := -100; rangeEnd := 99 |}
  /\ ~ within_bounds (size o) (calcContentRange o).
Proof.
  intros o. split; [reflexivity|].
  unfold within_bounds. simpl. lia.
Qed.

(** C1. When the store hands back an object with a body, the response to
    the fetch has status 206 exactly when the object carries a range and
    the resolved content length [rangeEnd - rangeOffset + 1] differs from
    its size, and status 200 in every other case. *)
Theorem status_partial_iff fuel request b log object stream :
  JS.endsWith (url request) "/" = false ->
  get_reply b log (make_resource_path request) (get_options request)
    = Some (Some object) ->
  body object = Some stream ->
  exists response,
    handle_get fuel request b log
      = Returned response
          (log ++ [CallGet (make_resource_path request) (get_options request)])
    /\ let r := calcContentRange object in
       let contentLength := rangeEnd r - rangeOffset r + 1 in
       (status response = 206
        <-> range object <> None /\ contentLength <> size object)
       /\ (status response = 200
           <-> range object = None \/ contentLength = size object).
Proof.
  intros Hurl Hget Hbody.
  destruct (handle_get_found fuel request b log Hurl object stream Hget Hbody)
    as (response & Hrun & _ & Hstatus).
  exists response. split; [exact Hrun|]. cbn zeta. rewrite Hstatus.
  destruct (range object) as [r|].
  - rewrite bool_decide_eq_true_2 by eauto. simpl.
    destruct (Z.eqb_spec (rangeEnd (calcContentRange object)
                          - rangeOffset (calcContentRange object) + 1)
                         (size object)) as [Heq|Hne]; simpl.
    + split; split; try lia; try tauto; try (intros [_ H]; contradiction).
    + split; split; try lia; try tauto;
        try (split; [discriminate|assumption]);
        try (intros [H|H]; congruence).
  - rewrite bool_decide_eq_false_2 by (intros [? [=]]). simpl.
    split; split; try lia; try tauto; try (intros [H _]; congruence).
Qed.

(** The example of the specification: a 100-byte object returned with the
    range offset 0, length 100 is a full response. *)
Lemma status_partial_iff_witness :
  exists response,
    handle_get 0 (Fixtures.get_request "https://example.com/public/a.txt")
               Fixtures.two_pages []
      = Returned response
          [CallGet "public/a.txt" {| onlyIf := []; opt_range := [] |}]
    /\ status response = 200.
Proof.
  destruct (status_partial_iff 0
              (Fixtures.get_request "https://example.com/public/a.txt")
              Fixtures.two_pages []
              (Fixtures.fetched "public/a.txt" 100
                 (Some (RangeOffsetLength (Some 0) (Some 100))) "abc")
              "abc" eq_refl eq_refl eq_refl)
    as (response & Hrun & _ & Hfull).
  exists response. split; [exact Hrun|].
  apply Hfull. right. reflexivity.
Defined.

(** ** The Prefix Enumerator: theorems *)

Section Enumerator.

Variables (b : R2Bucket) (prefix : string) (isRecursive : bool).

Lemma listAll_from_unfold fuel cur log :
  listAll_from (S fuel) b prefix isRecursive cur log =
  match list_reply b log (list_options prefix isRecursive cur) with
  | None => Threw (log ++ [CallList (list_options prefix isRecursive cur)])
  | Some page =>
      let log1 := (log ++ [CallList (list_options prefix isRecursive cur)])%list in
      if truncated page
      then match listAll_from fuel b prefix isRecursive (cursor page) log1 with
           | Returned rest log2 => Returned (objects page ++ rest)%list log2
           | Threw log2 => Threw log2
           | OutOfFuel => OutOfFuel
           end
      else Returned (objects page) log1
  end.
Proof.
  cbn [listAll_from]. run_io. fold (list_options prefix isRecursive cur).
  destruct (list_reply b log (list_options prefix isRecursive cur)) as [page|];
    [|reflexivity].
  cbn zeta. destruct (truncated page); reflexivity.
Qed.

Lemma list_calls_cons cur page rest :
  rest <> [] ->
  list_calls prefix isRecursive cur (page :: rest)
  = CallList (list_options prefix isRecursive cur)
    :: list_calls prefix isRecursive (cursor page) rest.
Proof.
  intros Hrest. unfold list_calls.
  destruct rest as [|page' rest]; [contradiction|reflexivity].
Qed.

Lemma list_calls_length cur pages :
  pages <> [] ->
  List.length (list_calls prefix isRecursive cur pages) = List.length pages.
Proof.
  intros Hne. unfold list_calls. cbn [map List.length].
  rewrite !length_map.
  destruct pages as [|p ps]; [contradiction|].
  clear Hne. revert p. induction ps as [|q ps IH]; intros p; [reflexivity|].
  change (removelast (p :: q :: ps)) with (p :: removelast (q :: ps)).
  cbn [List.length]. now rewrite IH.
Qed.

(** The loop started at cursor [cur], on a store that serves [pages] of
    which exactly the last is not truncated. *)
Lemma listAll_from_pages M :
  forall pages cur log fuel,
    served b prefix isRecursive log cur pages ->
    map truncated pages = (repeat true M ++ [false])%list ->
    (M < fuel)%nat ->
    listAll_from fuel b prefix isRecursive cur log
    = Returned (concat (map objects pages))
               (log ++ list_calls prefix isRecursive cur pages).
Proof.
  induction M as [|M IH]; intros pages cur log fuel Hserved Hflags Hfuel.
  - destruct pages as [|page [|page' rest]]; try discriminate Hflags.
    injection Hflags as Hlast. destruct Hserved as [Hreply _].
    destruct fuel as [|fuel]; [lia|].
    rewrite listAll_from_unfold, Hreply. cbn zeta. rewrite Hlast.
    cbn [map concat]. now rewrite app_nil_r.
  - destruct pages as [|page rest]; [discriminate Hflags|].
    cbn [repeat app map] in Hflags. injection Hflags as Hfirst Hrest.
    destruct Hserved as [Hreply Hserved].
    destruct fuel as [|fuel]; [lia|].
    assert (Hne : rest <> []) by (intros ->; destruct M; discriminate Hrest).
    rewrite listAll_from_unfold, Hreply. cbn zeta. rewrite Hfirst.
    rewrite (IH rest (cursor page) _ fuel Hserved Hrest) by lia.
    rewrite (list_calls_cons cur page rest Hne).
    cbn [map concat]. now rewrite <- app_assoc.
Qed.

(** The scripted store serves its script, whatever the cursors in it. *)
Lemma scripted_serves pages :
  forall done log cur,
    List.length log = List.length done ->
    served (scripted (done ++ pages)) prefix isRecursive log cur pages.
Proof.
  induction pages as [|page rest IH]; intros done log cur Hlen; [exact I|].
  split.
  - cbn [scripted list_reply]. now apply list_lookup_middle.
  - replace (done ++ page :: rest)%list with ((done ++ [page]) ++ rest)%list
      by now rewrite <- app_assoc.
    apply IH. rewrite !length_app. cbn [List.length]. lia.
Qed.

End Enumerator.

(** C4. Whenever the pages of a listing have the truncation flags [true]
    (M times) then [false], [listAll] yields the concatenation of the
    pages' objects in page order and makes exactly [M + 1] list calls, the
    first without a cursor and each later one with the cursor of the page
    before it: on every store that serves these pages to those calls, and
    so on the scripted store of any such sequence of pages. *)
Theorem listAll_yields_all_pages (prefix : string) (isRecursive : bool)
    (pages : list R2Objects) (M fuel : nat) :
  map truncated pages = (repeat true M ++ [false])%list ->
  (M < fuel)%nat ->
  (forall b log,
      served b prefix isRecursive log None pages ->
      listAll fuel b prefix isRecursive log
      = Returned (concat (map objects pages))
                 (log ++ list_calls prefix isRecursive None pages))
  /\ listAll fuel (scripted pages) prefix isRecursive []
     = Returned (concat (map objects pages))
                (list_calls prefix isRecursive None pages)
  /\ List.length (list_calls prefix isRecursive None pages) = S M.
Proof.
  intros Hflags Hfuel. split; [|split].
  - intros b log Hserved.
    now apply (listAll_from_pages b prefix isRecursive M).
  - apply (listAll_from_pages (scripted pages) prefix isRecursive M pages
             None [] fuel); [|assumption..].
    now apply (scripted_serves prefix isRecursive pages [] [] None).
  - rewrite list_calls_length.
    + rewrite <- (length_map truncated), Hflags, length_app, repeat_length.
      cbn. lia.
    + intros ->. destruct M; discriminate Hflags.
Qed.

(** Two pages that carry the same cursor: no store that answers by the
    cursor alone could serve them, the scripted one does. *)
Lemma listAll_yields_all_pages_witness :
  let first :=
    {| objects := [Fixtures.file "public/a.txt" 3; Fixtures.collection "public/b"];
       truncated := true; cursor := Some "c" |} in
  let second :=
    {| objects := [Fixtures.file "public/c.txt" 5];
       truncated := true; cursor := Some "c" |} in
  let last :=
    {| objects := [Fixtures.file "public/z.bin" 7];
       truncated := false; cursor := None |} in
  listAll 3 (scripted [first; second; last]) "public/" false []
  = Returned
      [Fixtures.file "public/a.txt" 3; Fixtures.collection "public/b";
       Fixtures.file "public/c.txt" 5; Fixtures.file "public/z.bin" 7]
      [CallList (list_options "public/" false None);
       CallList (list_options "public/" false (Some "c"));
       CallList (list_options "public/" false (Some "c"))].
Proof.
  intros first second last.
  apply (listAll_yields_all_pages "public/" false [first; second; last] 2 3).
  - reflexivity.
  - lia.
Defined.

(** ** Strings *)

Lemma string_app_assoc (a c d : string) : (a ++ c) ++ d = a ++ (c ++ d).
Proof.
  induction a as [|x a IH]; [reflexivity|].
  change (String x ((a ++ c) ++ d) = String x (a ++ c ++ d)). now f_equal.
Qed.

Lemma string_app_nil_r (a : string) : a ++ "" = a.
Proof.
  induction a as [|x a IH]; [reflexivity|].
  change (String x (a ++ "") = String x a). now f_equal.
Qed.

Lemma prefix_of_longer (a c s : string) :
  String.prefix (a ++ c) s = true -> String.prefix a s = true.
Proof.
  revert s. induction a as [|x a IH]; intros s H.
  - now destruct s.
  - destruct s as [|y s]; [discriminate H|].
    change (String.prefix (String x (a ++ c)) (String y s) = true) in H.
    cbn [String.prefix] in *.
    destruct (ascii_dec x y); [now apply IH|discriminate H].
Qed.

(** A path outside [/public] fails the gate's predicate. *)
Lemma outside_public_prefix (pathname : string) :
  JS.startsWith pathname "/public" = false -> is_public_path pathname = false.
Proof.
  unfold is_public_path, JS.startsWith, JS.str_eq. intros Hout.
  apply orb_false_iff. split.
  - destruct (String.prefix "/public/" pathname) eqn:Hp; [|reflexivity].
    change "/public/" with ("/public" ++ "/") in Hp.
    apply prefix_of_longer in Hp. congruence.
  - destruct (String.eqb_spec pathname "/public") as [->|]; [|reflexivity].
    discriminate Hout.
Qed.

(** ** The gate and the dispatcher: theorems *)

Lemma fetch_rejected fuel request env log :
  is_public_path (URL.pathname (url request)) = false ->
  fetch fuel request env log
  = Returned {| resp_body := Some "Unauthorized"; status := 401;
                statusText := ""; resp_headers := [] |} log.
Proof. intros Hgate. unfold fetch. now rewrite Hgate. Qed.

Lemma fetch_admitted fuel request env log :
  is_public_path (URL.pathname (url request)) = true ->
  fetch fuel request env log = dispatch_handler fuel request (bucket env) log.
Proof.
  intros Hgate. unfold fetch. rewrite Hgate. run_io. cbn [negb].
  now destruct (dispatch_handler fuel request (bucket env) log).
Qed.

Lemma handle_get_ignores_method fuel m request b :
  handle_get fuel (with_method m request) b = handle_get fuel request b.
Proof. reflexivity. Qed.

(** C7. A request whose URL path does not start with [/public] is answered
    401 whatever its method (OPTIONS included), and the log of store calls
    is left as it was: neither [list] nor [get] is called. *)
Theorem unauthorized_without_store_access fuel request env log :
  JS.startsWith (URL.pathname (url request)) "/public" = false ->
  fetch fuel request env log
  = Returned {| resp_body := Some "Unauthorized"; status := 401;
                statusText := ""; resp_headers := [] |} log.
Proof. intros Hout. apply fetch_rejected, outside_public_prefix, Hout. Qed.

Lemma unauthorized_without_store_access_witness :
  fetch 3 {| method := "OPTIONS"; url := "https://example.com/private/a.txt";
             headers := [] |}
        {| bucket := Fixtures.two_pages |} []
  = Returned {| resp_body := Some "Unauthorized"; status := 401;
                statusText := ""; resp_headers := [] |} [].
Proof.
  apply (unauthorized_without_store_access 3
           {| method := "OPTIONS"; url := "https://example.com/private/a.txt";
              headers := [] |}).
  reflexivity.
Defined.

(** C6. In the dispatcher (the gate of [fetch] has run before it), a HEAD
    request is answered after the GET handling of the same request: where
    that handling returns a response, the HEAD response comes after the
    same store calls, has no body, and has the same status, the same
    status text and the same headers; where it is rejected or does not
    end, so is the HEAD handling. *)
Theorem head_is_get_without_body fuel request b log :
  match dispatch_handler fuel (with_method "GET" request) b log with
  | Returned get_response log' =>
      exists head_response,
        dispatch_handler fuel (with_method "HEAD" request) b log
        = Returned head_response log'
        /\ resp_body head_response = None
        /\ status head_response = status get_response
        /\ statusText head_response = statusText get_response
        /\ resp_headers head_response = resp_headers get_response
  | Threw log' =>
      dispatch_handler fuel (with_method "HEAD" request) b log = Threw log'
  | OutOfFuel =>
      dispatch_handler fuel (with_method "HEAD" request) b log = OutOfFuel
  end.
Proof.
  unfold dispatch_handler, JS.str_eq. cbn [method with_method].
  change (String.eqb "HEAD" "OPTIONS") with false.
  change (String.eqb "HEAD" "HEAD") with true.
  change (String.eqb "GET" "OPTIONS") with false.
  change (String.eqb "GET" "HEAD") with false.
  change (String.eqb "GET" "GET") with true.
  cbn iota. unfold handle_head. rewrite !handle_get_ignores_method.
  run_io.
  destruct (handle_get fuel request b log) as [response log'|log'|];
    [|reflexivity..].
  exists (without_body response). now repeat split.
Qed.

(** A HEAD of the 100-byte object of the fixture: the headers of the GET,
    no body. *)
Example head_of_an_object :
  dispatch_handler 0 {| method := "HEAD";
                        url := "https://example.com/public/a.txt";
                        headers := [] |} Fixtures.two_pages []
  = Returned {| resp_body := None; status := 200; statusText := "";
                resp_headers := [("Content-Type", "application/octet-stream");
                                 ("Content-Length", "100");
                                 ("Content-Range", "bytes 0-99/100")] |}
             [CallGet "public/a.txt" {| onlyIf := []; opt_range := [] |}].
Proof. reflexivity. Qed.

(** ** The object fetch: theorems *)

(** C5, as amended. When [get] hands back an object without a body, the
    response has status 412, the plain-text body [Precondition Failed] and
    no header taken from the object. *)
Theorem precondition_failed_response fuel request b log object :
  JS.endsWith (url request) "/" = false ->
  get_reply b log (make_resource_path request) (get_options request)
    = Some (Some object) ->
  body object = None ->
  handle_get fuel request b log
  = Returned {| resp_body := Some "Precondition Failed"; status := 412;
                statusText := ""; resp_headers := [] |}
             (log ++ [CallGet (make_resource_path request) (get_options request)]).
Proof. intros Hurl Hget Hbody. now apply handle_get_bodyless with object. Qed.

Lemma precondition_failed_response_witness :
  handle_get 0 (Fixtures.get_request "https://example.com/public/stale")
             Fixtures.two_pages []
  = Returned {| resp_body := Some "Precondition Failed"; status := 412;
                statusText := ""; resp_headers := [] |}
             [CallGet "public/stale" {| onlyIf := []; opt_range := [] |}].
Proof.
  apply (precondition_failed_response 0
           (Fixtures.get_request "https://example.com/public/stale")
           Fixtures.two_pages [] (Fixtures.file "public/stale" 100));
    reflexivity.
Defined.

(** C5 as stated fails: the 412 response to a bodyless object is not
    without a body. *)
Lemma precondition_failed_has_body :
  exists response log,
    get_reply Fixtures.two_pages [] "public/stale"
              {| onlyIf := []; opt_range := [] |}
      = Some (Some (Fixtures.file "public/stale" 100))
    /\ body (Fixtures.file "public/stale" 100) = None
    /\ handle_get 0 (Fixtures.get_request "https://example.com/public/stale")
                  Fixtures.two_pages []
       = Returned response log
    /\ status response = 412
    /\ resp_body response <> None.
Proof.
  eexists. eexists. repeat split; try reflexivity. discriminate.
Qed.

(** C9. The code at the failing input: a GET of a directory URL that
    carries a query string.  The URL path ends with [/], yet the request is
    not listed: the one store call is a [get] of the key [public/dir]. *)
Theorem directory_url_with_query_is_fetched :
  let request := Fixtures.get_request "https://example.com/public/dir/?x=1" in
  JS.endsWith (URL.pathname (url request)) "/" = true
  /\ handle_get 5 request Fixtures.two_pages []
     = Returned {| resp_body := Some "Not Found"; status := 404;
                   statusText := ""; resp_headers := [] |}
                [CallGet "public/dir" {| onlyIf := []; opt_range := [] |}].
Proof. split; reflexivity. Qed.

(** ** The Directory Renderer: theorems *)

Section Directory.

Variables (fuel : nat) (request : Request) (b : R2Bucket).
Hypothesis directory : JS.endsWith (url request) "/" = true.

Lemma handle_get_directory_branch log :
  handle_get fuel request b log =
  match listAll fuel b (directory_prefix request) false log with
  | Returned entries log' =>
      Returned
        (html_response
           (fold_left
              (page_step (make_resource_path request) (directory_prefix request))
              entries (directory_head request)))
        log'
  | Threw log' => Threw log'
  | OutOfFuel => OutOfFuel
  end.
Proof.
  unfold handle_get, directory_prefix, directory_head, JS.str_eq.
  rewrite directory. cbn zeta.
  destruct (String.eqb_spec (make_resource_path request) "") as [Hroot|Hsub];
    cbn [negb]; run_io.
  - rewrite Hroot.
    now destruct (listAll fuel b "" false log).
  - now destruct (listAll fuel b (make_resource_path request ++ "/") false log).
Qed.

(** The loop over the enumeration appends one link per entry, in order,
    and passes over the entries named like the resource itself. *)
Lemma fold_page_step entries :
  forall page,
    fold_left
      (page_step (make_resource_path request) (directory_prefix request))
      entries page
    = page ++ concat_strings
                (map render_link
                   (map (entry_link (directory_prefix request))
                      (filter (fun e => key e <> make_resource_path request)
                              entries))).
Proof.
  induction entries as [|e entries IH]; intros page.
  - cbn. now rewrite string_app_nil_r.
  - cbn [fold_left]. rewrite IH. unfold page_step, JS.str_eq.
    destruct (String.eqb_spec (key e) (make_resource_path request)) as [Hself|Hother].
    + now rewrite filter_cons_False by tauto.
    + rewrite filter_cons_True by assumption.
      cbn [map concat_strings fold_right].
      now rewrite string_app_assoc.
Qed.

End Directory.

(** C8. For a directory request whose enumeration yields [entries], the
    page is the parent link (below the root) followed by one link per
    entry in enumeration order, the entries whose key equals the resource
    path left out; the link of every other entry has the href [/] plus its
    key, plus [/] when its custom metadata marks a collection. *)
Theorem directory_page_links fuel request b log entries log' :
  JS.endsWith (url request) "/" = true ->
  listAll fuel b (directory_prefix request) false log = Returned entries log' ->
  let resource_path := make_resource_path request in
  let linked := filter (fun e => key e <> resource_path) entries in
  let links := map (entry_link (directory_prefix request)) linked in
  handle_get fuel request b log
  = Returned
      (html_response
         (directory_head request ++ concat_strings (map render_link links)))
      log'
  /\ (forall e, e ∈ entries -> key e = resource_path -> e ∉ linked)
  /\ (forall e, e ∈ entries -> key e <> resource_path ->
      e ∈ linked
      /\ href (entry_link (directory_prefix request) e)
         = "/" ++ key e ++ (if is_collection e then "/" else "")).
Proof.
  intros Hurl Hlist resource_path linked links. split; [|split].
  - rewrite (handle_get_directory_branch fuel request b Hurl log), Hlist.
    now rewrite fold_page_step.
  - intros e _ Hself Hin. apply list_elem_of_filter in Hin. tauto.
  - intros e He Hother. split; [|reflexivity].
    apply list_elem_of_filter. tauto.
Qed.

Lemma directory_page_links_witness :
  handle_get 2 (Fixtures.get_request "https://example.com/public/")
             Fixtures.two_pages []
  = Returned
      (html_response
         (parent_link
          ++ render_link {| href := "/public/a.txt"; text := "a.txt" |}
          ++ render_link {| href := "/public/b/"; text := "b" |}
          ++ render_link {| href := "/public/z.bin"; text := "z.bin" |}))
      [CallList (list_options "public/" false None);
       CallList (list_options "public/" false (Some "c1"))].
Proof.
  apply (directory_page_links 2
           (Fixtures.get_request "https://example.com/public/")
           Fixtures.two_pages []
           [Fixtures.file "public/a.txt" 3; Fixtures.collection "public/b";
            Fixtures.file "public" 0; Fixtures.file "public/z.bin" 7]);
    reflexivity.
Defined.

(** C10. An authorized GET of a directory URL never ends in a response
    other than 200 with Content-Type [text/html; charset=utf-8]; and when
    the store serves the listing (every list call answered, up to a page
    that is not truncated) that response is produced, after exactly those
    list calls.  With no entry at all the page holds nothing but the
    parent link. *)
Theorem directory_listing_is_200 fuel request env log :
  method request = "GET" ->
  is_public_path (URL.pathname (url request)) = true ->
  JS.endsWith (url request) "/" = true ->
  (forall response log',
      fetch fuel request env log = Returned response log' ->
      status response = 200
      /\ resp_headers response = [("Content-Type", "text/html; charset=utf-8")])
  /\ (forall pages M,
      served (bucket env) (directory_prefix request) false log None pages ->
      map truncated pages = (repeat true M ++ [false])%list ->
      (M < fuel)%nat ->
      exists page,
        fetch fuel request env log
        = Returned (html_response page)
            (log ++ list_calls (directory_prefix request) false None pages)
        /\ (concat (map objects pages) = [] -> page = directory_head request)).
Proof.
  intros Hmethod Hgate Hurl.
  assert (Hfetch : fetch fuel request env log
                   = handle_get fuel request (bucket env) log).
  { rewrite (fetch_admitted fuel request env log Hgate).
    unfold dispatch_handler, JS.str_eq. now rewrite Hmethod. }
  rewrite Hfetch, (handle_get_directory_branch fuel request (bucket env) Hurl log).
  split.
  - intros response log' Hrun.
    destruct (listAll fuel (bucket env) (directory_prefix request) false log);
      try discriminate Hrun.
    injection Hrun as <- _. split; reflexivity.
  - intros pages M Hserved Hflags Hfuel.
    eapply listAll_from_pages in Hserved; [|exact Hflags|exact Hfuel].
    unfold listAll. rewrite Hserved. eexists. split; [reflexivity|].
    now intros ->.
Qed.

Lemma directory_listing_is_200_witness :
  fetch 1 (Fixtures.get_request "https://example.com/public/nothing/")
        {| bucket := Fixtures.empty_bucket |} []
  = Returned (html_response parent_link)
             [CallList (list_options "public/nothing/" false None)].
Proof.
  destruct (directory_listing_is_200 1
              (Fixtures.get_request "https://example.com/public/nothing/")
              {| bucket := Fixtures.empty_bucket |} []
              eq_refl eq_refl eq_refl) as [_ Hserved].
  destruct (Hserved [{| objects := []; truncated := false; cursor := None |}]
                    0%nat (conj eq_refl I) eq_refl ltac:(lia))
    as (page & Hrun & Hpage).
  rewrite Hrun, (Hpage eq_refl). reflexivity.
Defined.

(** ** The embedding on the examples of the specification *)

Example resource_path_of_directory :
  make_resource_path (Fixtures.get_request "https://example.com/public/dir/?x=1")
  = "public/dir".
Proof. reflexivity. Qed.

Example resource_path_of_root :
  make_resource_path (Fixtures.get_request "https://example.com") = "".
Proof. reflexivity. Qed.

Example range_absent :
  calcContentRange (Fixtures.fetched "k" 100 None "")
  = {| rangeOffset := 0; rangeEnd := 99 |}.
Proof. reflexivity. Qed.

Example range_clamped_end :
  calcContentRange
    (Fixtures.fetched "k" 100 (Some (RangeOffsetLength (Some 90) (Some 50))) "")
  = {| rangeOffset := 90; rangeEnd := 99 |}.
Proof. reflexivity. Qed.

Example range_empty_object :
  calcContentRange (Fixtures.fetched "k" 0 None "")
  = {| rangeOffset := 0; rangeEnd := -1 |}.
Proof. reflexivity. Qed.

(** The root listing of a store holding [a.txt] and the collection [b]. *)
Example root_listing :
  handle_get 1 (Fixtures.get_request "https://example.com/")
    {| list_reply := fun _ _ =>
         Some {| objects := [Fixtures.file "a.txt" 1; Fixtures.collection "b"];
                 truncated := false; cursor := None |};
       get_reply := fun _ _ _ => Some None |} []
  = Returned
      (html_response
         (render_link {| href := "/a.txt"; text := "a.txt" |}
          ++ render_link {| href := "/b/"; text := "b" |}))
      [CallList (list_options "" false None)].
Proof. reflexivity. Qed.

Example options_is_204 :
  fetch 0 {| method := "OPTIONS"; url := "https://example.com/public/a.txt";
             headers := [] |}
        {| bucket := Fixtures.two_pages |} []
  = Returned {| resp_body := None; status := 204; statusText := "";
                resp_headers := [("Allow", "OPTIONS, GET, HEAD")] |} [].
Proof. reflexivity. Qed.

Example delete_is_405 :
  fetch 0 {| method := "DELETE"; url := "https://example.com/public/a.txt";
             headers := [] |}
        {| bucket := Fixtures.two_pages |} []
  = Returned {| resp_body := Some "Method Not Allowed"; status := 405;
                statusText := "";
                resp_headers := [("Allow", "OPTIONS, GET, HEAD")] |} [].
Proof. reflexivity. Qed.

(** A store that never stops truncating exhausts any budget: the loop of
    [listAll] has no exit of its own. *)
Example endless_listing fuel :
  listAll fuel
    {| list_reply := fun _ _ =>
         Some {| objects := []; truncated := true; cursor := Some "again" |};
       get_reply := fun _ _ _ => Some None |} "" false []
  = OutOfFuel.
Proof.
  unfold listAll. generalize (@nil StoreCall) (@None string).
  induction fuel as [|fuel IH]; intros log cur; [reflexivity|].
  rewrite listAll_from_unfold. cbn. now rewrite IH.
Qed.

(** * Further properties of the code *)

(** ** Strings, continued *)

Lemma rev_app_snoc (q : string) (c : ascii) :
  forall acc,
    String.rev_app (q ++ String c "") acc = String c (String.rev_app q acc).
Proof.
  induction q as [|a q IH]; intros acc; [reflexivity|].
  change (String.rev_app (q ++ String c "") (String a acc)
          = String c (String.rev_app q (String a acc))).
  apply IH.
Qed.

Lemma endsWith_snoc (q : string) (c : ascii) :
  JS.endsWith (q ++ String c "") (String c "") = true.
Proof.
  unfold JS.endsWith, String.rev. rewrite rev_app_snoc.
  cbn. destruct (ascii_dec c c) as [_|Hne]; [|contradiction].
  now destruct (String.rev_app q "").
Qed.

Lemma slice_but_last_snoc (q : string) (c : ascii) :
  JS.slice_but_last (q ++ String c "") = q.
Proof.
  induction q as [|a q IH]; [reflexivity|].
  change (JS.slice_but_last (String a (q ++ String c "")) = String a q).
  cbn [JS.slice_but_last]. rewrite IH.
  destruct q; reflexivity.
Qed.

Lemma slice_from_app (p s : string) :
  JS.slice_from (String.length p) (p ++ s) = s.
Proof.
  induction p as [|a p IH]; [now destruct s|].
  change (JS.slice_from (S (String.length p)) (String a (p ++ s)) = s).
  exact IH.
Qed.

Lemma prefix_split (a s : string) :
  String.prefix a s = true -> exists t, s = a ++ t.
Proof.
  revert s. induction a as [|x a IH]; intros s H.
  - now exists s.
  - destruct s as [|y s]; [discriminate H|].
    cbn [String.prefix] in H.
    destruct (ascii_dec x y) as [->|]; [|discriminate H].
    destruct (IH s H) as [t ->]. now exists t.
Qed.

Lemma prefix_app_l (a t : string) : String.prefix a (a ++ t) = true.
Proof.
  induction a as [|x a IH]; [now destruct t|].
  change (String.prefix (String x a) (String x (a ++ t)) = true).
  cbn [String.prefix]. now destruct (ascii_dec x x).
Qed.

Lemma slice_but_last_app (a s : string) :
  s <> "" -> JS.slice_but_last (a ++ s) = a ++ JS.slice_but_last s.
Proof.
  intros Hs. induction a as [|x a IH]; [reflexivity|].
  change (JS.slice_but_last (String x (a ++ s))
          = String x (a ++ JS.slice_but_last s)).
  cbn [JS.slice_but_last]. rewrite IH.
  destruct (a ++ s) eqn:Has; [|reflexivity].
  destruct a; [change (s = "") in Has; contradiction|discriminate Has].
Qed.

(** ** The Resource Path Resolver *)

(** X1. The resource path is the URL path without its leading slash and
    without one trailing slash: [/q/] and, when [q] does not end in a
    slash, [/q] both resolve to [q]. *)
Theorem make_resource_path_strips (request : Request) (q : string) :
  (URL.pathname (url request) = "/" ++ q ++ "/" ->
   make_resource_path request = q)
  /\ (URL.pathname (url request) = "/" ++ q ->
      JS.endsWith q "/" = false ->
      make_resource_path request = q).
Proof.
  unfold make_resource_path. split.
  - intros ->. change (JS.slice_from 1 ("/" ++ q ++ "/")) with (q ++ "/").
    now rewrite endsWith_snoc, slice_but_last_snoc.
  - intros -> Hq. change (JS.slice_from 1 ("/" ++ q)) with q.
    now rewrite Hq.
Qed.

Lemma make_resource_path_strips_witness :
  make_resource_path (Fixtures.get_request "https://example.com/public/dir/?x=1")
  = "public/dir"
  /\ make_resource_path (Fixtures.get_request "https://example.com/public/dir#top")
     = "public/dir".
Proof.
  split.
  - apply (proj1 (make_resource_path_strips
                    (Fixtures.get_request "https://example.com/public/dir/?x=1")
                    "public/dir")).
    reflexivity.
  - apply (proj2 (make_resource_path_strips
                    (Fixtures.get_request "https://example.com/public/dir#top")
                    "public/dir")); reflexivity.
Defined.

(** ** The Range Resolver, continued *)

(** X2. The resolved end never passes the last byte, and the content length
    [rangeEnd - rangeOffset + 1] is the object size without a range, the
    suffix itself for a suffix range (also when it exceeds the size), and
    for an offset/length range the smaller of the length asked for and
    what is left after the offset. *)
Theorem content_length_by_shape (object : R2Object) :
  let r := calcContentRange object in
  let contentLength := rangeEnd r - rangeOffset r + 1 in
  rangeEnd r <= size object - 1
  /\ match range object with
     | None => contentLength = size object
     | Some (RangeSuffix k) => contentLength = k
     | Some (RangeOffsetLength offset len) =>
         let start := default 0 offset in
         rangeOffset r = start
         /\ contentLength
            = Z.min (default (size object - start) len) (size object - start)
     end.
Proof.
  unfold calcContentRange.
  destruct (range object) as [[k|offset len]|]; cbn [rangeOffset rangeEnd];
    cbn zeta; lia.
Qed.

(** ** The Prefix Enumerator, continued *)

Section EnumeratorRuns.

Variables (b : R2Bucket) (prefix : string) (isRecursive : bool).

(** Whatever the store answers, a run that ends has only added list calls
    for the prefix and delimiter asked for, at least one and no more than
    the budget. *)
Lemma listAll_from_calls fuel :
  forall cur log log',
    log_of (listAll_from fuel b prefix isRecursive cur log) = Some log' ->
    exists calls,
      log' = (log ++ calls)%list
      /\ Forall (is_listing_call prefix isRecursive) calls
      /\ (1 <= List.length calls <= fuel)%nat.
Proof.
  induction fuel as [|fuel IH]; intros cur log log' Hrun; [discriminate Hrun|].
  rewrite listAll_from_unfold in Hrun.
  set (call := CallList (list_options prefix isRecursive cur)) in *.
  assert (Hcall : is_listing_call prefix isRecursive call) by now exists cur.
  destruct (list_reply b log (list_options prefix isRecursive cur)) as [page|].
  - cbn zeta in Hrun. destruct (truncated page).
    + destruct (listAll_from fuel b prefix isRecursive (cursor page)
                  (log ++ [call])%list) as [rest log2|log2|] eqn:Hrest;
        try discriminate Hrun;
        injection Hrun as <-;
        (destruct (IH (cursor page) (log ++ [call])%list log2) as
            (calls & -> & Hall & Hlen); [now rewrite Hrest|]);
        (exists (call :: calls); split; [now rewrite <- app_assoc|];
         split; [now constructor|cbn [List.length]; lia]).
    + injection Hrun as <-. exists [call]. split; [reflexivity|].
      split; [now repeat constructor|cbn; lia].
  - injection Hrun as <-. exists [call]. split; [reflexivity|].
    split; [now repeat constructor|cbn; lia].
Qed.

(** What a run that returns has seen: pages served along the cursor chain,
    all truncated but the last. *)
Lemma listAll_from_returned fuel :
  forall cur log yielded log',
    listAll_from fuel b prefix isRecursive cur log = Returned yielded log' ->
    exists pages M,
      served b prefix isRecursive log cur pages
      /\ map truncated pages = (repeat true M ++ [false])%list
      /\ (M < fuel)%nat
      /\ yielded = concat (map objects pages)
      /\ log' = (log ++ list_calls prefix isRecursive cur pages)%list.
Proof.
  induction fuel as [|fuel IH]; intros cur log yielded log' Hrun;
    [discriminate Hrun|].
  rewrite listAll_from_unfold in Hrun.
  destruct (list_reply b log (list_options prefix isRecursive cur))
    as [page|] eqn:Hreply; [|discriminate Hrun].
  cbn zeta in Hrun. destruct (truncated page) eqn:Htrunc.
  - destruct (listAll_from fuel b prefix isRecursive (cursor page)
                (log ++ [CallList (list_options prefix isRecursive cur)])%list)
      as [rest log2|log2|] eqn:Hrest; try discriminate Hrun.
    injection Hrun as <- <-.
    destruct (IH _ _ _ _ Hrest)
      as (pages & M & Hserved & Hflags & Hfuel & -> & ->).
    exists (page :: pages), (S M).
    assert (Hne : pages <> []) by (intros ->; destruct M; discriminate Hflags).
    split; [now split|]. split; [cbn; now rewrite Htrunc, Hflags|].
    split; [lia|]. split; [reflexivity|].
    rewrite (list_calls_cons prefix isRecursive cur page pages Hne).
    now rewrite <- app_assoc.
  - injection Hrun as <- <-. exists [page], 0%nat.
    split; [now split|]. split; [cbn; now rewrite Htrunc|].
    split; [lia|]. split; [cbn; now rewrite app_nil_r|reflexivity].
Qed.

(** A rejected call ends the run with a rejection, whatever was yielded
    before. *)
Lemma listAll_from_rejected pages :
  forall cur log fuel,
    rejected_after b prefix isRecursive log cur pages ->
    (List.length pages < fuel)%nat ->
    listAll_from fuel b prefix isRecursive cur log
    = Threw (log ++ map (fun c => CallList (list_options prefix isRecursive c))
                        (cur :: map cursor pages)).
Proof.
  induction pages as [|page rest IH]; intros cur log fuel Hrej Hfuel;
    (destruct fuel as [|fuel]; [cbn in Hfuel; lia|]);
    rewrite listAll_from_unfold.
  - cbn in Hrej. now rewrite Hrej.
  - destruct Hrej as (Hreply & Htrunc & Hrej).
    rewrite Hreply. cbn zeta. rewrite Htrunc.
    rewrite (IH _ _ fuel Hrej) by (cbn in Hfuel; lia).
    cbn [map]. now rewrite <- app_assoc.
Qed.

End EnumeratorRuns.

(** X3. On any store, and whether it returns or is rejected, [listAll] only
    ever calls [list], each time with the prefix it was given, the
    delimiter [/] unless recursive, and the same include list; it makes at
    least one call and appends its calls to the log. *)
Theorem listAll_only_lists fuel b prefix isRecursive log log' :
  log_of (listAll fuel b prefix isRecursive log) = Some log' ->
  exists calls,
    log' = (log ++ calls)%list
    /\ Forall (is_listing_call prefix isRecursive) calls
    /\ (1 <= List.length calls <= fuel)%nat.
Proof. apply listAll_from_calls. Qed.

Lemma listAll_only_lists_witness :
  exists calls,
    [CallList (list_options "public/" false None);
     CallList (list_options "public/" false (Some "c1"))] = ([] ++ calls)%list
    /\ Forall (is_listing_call "public/" false) calls
    /\ (1 <= List.length calls <= 5)%nat.
Proof.
  apply (listAll_only_lists 5 Fixtures.two_pages "public/" false []).
  reflexivity.
Defined.

(** X4. [listAll] returns exactly when the store serves, along the cursor
    chain, a run of truncated pages closed by one that is not (within the
    budget); what it returns is then the concatenation of those pages. *)
Theorem listAll_returns_iff fuel b prefix isRecursive log yielded log' :
  listAll fuel b prefix isRecursive log = Returned yielded log'
  <-> exists pages M,
        served b prefix isRecursive log None pages
        /\ map truncated pages = (repeat true M ++ [false])%list
        /\ (M < fuel)%nat
        /\ yielded = concat (map objects pages)
        /\ log' = (log ++ list_calls prefix isRecursive None pages)%list.
Proof.
  split.
  - apply listAll_from_returned.
  - intros (pages & M & Hserved & Hflags & Hfuel & -> & ->).
    now apply (listAll_from_pages b prefix isRecursive M).
Qed.

(** X5. A directory request whose listing is rejected by the store part-way
    (after any number of truncated pages) is not answered at all: the
    rejection goes up, the entries already yielded are dropped. *)
Theorem directory_listing_rejected fuel request b log pages :
  JS.endsWith (url request) "/" = true ->
  rejected_after b (directory_prefix request) false log None pages ->
  (List.length pages < fuel)%nat ->
  handle_get fuel request b log
  = Threw (log ++ map (fun c => CallList
                                  (list_options (directory_prefix request) false c))
                      (None :: map cursor pages)).
Proof.
  intros Hurl Hrej Hfuel.
  rewrite (handle_get_directory_branch fuel request b Hurl log).
  unfold listAll.
  now rewrite (listAll_from_rejected b (directory_prefix request) false
                 pages None log fuel Hrej Hfuel).
Qed.

Lemma directory_listing_rejected_witness :
  handle_get 2 (Fixtures.get_request "https://example.com/public/")
             (scripted [Fixtures.page1]) []
  = Threw [CallList (list_options "public/" false None);
           CallList (list_options "public/" false (Some "c1"))].
Proof.
  apply (directory_listing_rejected 2
           (Fixtures.get_request "https://example.com/public/")
           (scripted [Fixtures.page1]) [] [Fixtures.page1]).
  - reflexivity.
  - repeat split; reflexivity.
  - cbn. lia.
Defined.

(** ** The handlers, case by case *)

Lemma handle_get_object_cases fuel request b log :
  JS.endsWith (url request) "/" = false ->
  handle_get fuel request b log =
  let call := CallGet (make_resource_path request) (get_options request) in
  match get_reply b log (make_resource_path request) (get_options request) with
  | None => Threw (log ++ [call])
  | Some None =>
      Returned {| resp_body := Some "Not Found"; status := 404;
                  statusText := ""; resp_headers := [] |} (log ++ [call])
  | Some (Some object) =>
      match body object with
      | None =>
          Returned {| resp_body := Some "Precondition Failed"; status := 412;
                      statusText := ""; resp_headers := [] |} (log ++ [call])
      | Some stream =>
          Returned
            {| resp_body := Some stream;
               status :=
                 if (bool_decide (is_Some (range object))
                     && negb (Z.eqb (rangeEnd (calcContentRange object)
                                     - rangeOffset (calcContentRange object) + 1)
                                    (size object)))%bool
                 then 206 else 200;
               statusText := "";
               resp_headers := object_headers object |}
            (log ++ [call])
      end
  end.
Proof.
  intros Hurl. unfold handle_get. rewrite Hurl. run_io.
  fold (get_options request).
  destruct (get_reply b log (make_resource_path request) (get_options request))
    as [[object|]|]; try reflexivity.
  destruct (body object); reflexivity.
Qed.

Lemma fetch_cases fuel request env log :
  fetch fuel request env log =
  if negb (is_public_path (URL.pathname (url request)))
  then Returned unauthorized log
  else if String.eqb (method request) "OPTIONS"
  then Returned options_response log
  else if String.eqb (method request) "HEAD"
  then (without_body <$> handle_get fuel request (bucket env)) log
  else if String.eqb (method request) "GET"
  then handle_get fuel request (bucket env) log
  else Returned method_not_allowed log.
Proof.
  unfold fetch. destruct (negb (is_public_path (URL.pathname (url request))));
    [reflexivity|].
  unfold dispatch_handler, JS.str_eq, handle_head, fmap, IO_fmap. run_io.
  destruct (String.eqb (method request) "OPTIONS"); [reflexivity|].
  destruct (String.eqb (method request) "HEAD").
  - now destruct (handle_get fuel request (bucket env) log).
  - destruct (String.eqb (method request) "GET"); [|reflexivity].
    now destruct (handle_get fuel request (bucket env) log).
Qed.

Lemma handle_get_status fuel request b log response log' :
  handle_get fuel request b log = Returned response log' ->
  In (status response) [200; 206; 404; 412].
Proof.
  destruct (JS.endsWith (url request) "/") eqn:Hurl.
  - rewrite (handle_get_directory_branch fuel request b Hurl log).
    destruct (listAll fuel b (directory_prefix request) false log);
      intros [= <- _]; cbn; auto.
  - rewrite (handle_get_object_cases fuel request b log Hurl). cbn zeta.
    destruct (get_reply b log (make_resource_path request) (get_options request))
      as [[object|]|]; [destruct (body object)|..];
      intros [= <- _]; cbn [status]; cbn; auto.
    destruct (_ && _)%bool; auto.
Qed.

Lemma handle_get_calls fuel request b log log' :
  log_of (handle_get fuel request b log) = Some log' ->
  exists calls,
    log' = (log ++ calls)%list
    /\ if JS.endsWith (url request) "/"
       then Forall (is_listing_call (directory_prefix request) false) calls
       else calls = [CallGet (make_resource_path request) (get_options request)].
Proof.
  destruct (JS.endsWith (url request) "/") eqn:Hurl.
  - rewrite (handle_get_directory_branch fuel request b Hurl log).
    intros Hrun.
    destruct (listAll_from_calls b (directory_prefix request) false fuel
                None log log') as (calls & -> & Hall & _).
    + unfold listAll in Hrun.
      now destruct (listAll_from fuel b (directory_prefix request) false None log).
    + now exists calls.
  - rewrite (handle_get_object_cases fuel request b log Hurl). cbn zeta.
    intros Hrun. eexists. split; [|reflexivity].
    destruct (get_reply b log (make_resource_path request) (get_options request))
      as [[object|]|]; [destruct (body object)|..];
      now injection Hrun as <-.
Qed.

(** ** The gate and the dispatcher, continued *)

(** X6. Every response of the gateway carries one of seven status codes,
    and 401 is the answer of the gate alone: a response is 401 exactly
    when the path is neither [/public] nor under [/public/]. *)
Theorem fetch_status fuel request env log response log' :
  fetch fuel request env log = Returned response log' ->
  In (status response) gateway_statuses
  /\ (status response = 401
      <-> is_public_path (URL.pathname (url request)) = false).
Proof.
  rewrite fetch_cases.
  destruct (is_public_path (URL.pathname (url request))); cbn [negb].
  - assert (Hget : forall r l,
               handle_get fuel request (bucket env) log = Returned r l ->
               In (status r) gateway_statuses
               /\ (status r = 401 <-> true = false)).
    { intros r l Hr. apply handle_get_status in Hr. cbn in Hr |- *.
      intuition (try discriminate; try lia; auto). }
    destruct (String.eqb (method request) "OPTIONS").
    { intros [= <- _]. cbn. intuition (try discriminate; auto). }
    destruct (String.eqb (method request) "HEAD").
    { unfold fmap, IO_fmap.
      destruct (handle_get fuel request (bucket env) log) as [r l| |] eqn:Hr;
        intros [= <- _]. apply (Hget r l eq_refl). }
    destruct (String.eqb (method request) "GET").
    { apply Hget. }
    intros [= <- _]. cbn. intuition (try discriminate; auto).
  - intros [= <- _]. cbn. intuition auto.
Qed.

Lemma fetch_status_witness :
  In 412 gateway_statuses
  /\ (412 = 401 <-> is_public_path "/public/stale" = false).
Proof.
  apply (fetch_status 0
           (Fixtures.get_request "https://example.com/public/stale")
           {| bucket := Fixtures.two_pages |} []
           {| resp_body := Some "Precondition Failed"; status := 412;
              statusText := ""; resp_headers := [] |}
           [CallGet "public/stale" {| onlyIf := []; opt_range := [] |}]).
  reflexivity.
Defined.

(** X7. A request that passes the gate with a method other than GET and
    HEAD is answered without any store call, with the header
    [Allow: OPTIONS, GET, HEAD]: 204 and no body for OPTIONS, 405 for any
    other method. *)
Theorem other_methods_leave_store_alone fuel request env log :
  is_public_path (URL.pathname (url request)) = true ->
  method request <> "GET" ->
  method request <> "HEAD" ->
  fetch fuel request env log
  = Returned (if String.eqb (method request) "OPTIONS"
              then options_response else method_not_allowed) log.
Proof.
  intros Hgate Hget Hhead. rewrite fetch_cases, Hgate. cbn [negb].
  destruct (String.eqb (method request) "OPTIONS"); [reflexivity|].
  apply String.eqb_neq in Hget, Hhead. now rewrite Hhead, Hget.
Qed.

Lemma other_methods_leave_store_alone_witness :
  fetch 0 {| method := "PROPFIND"; url := "https://example.com/public/";
             headers := [] |}
        {| bucket := Fixtures.two_pages |} []
  = Returned method_not_allowed [].
Proof.
  apply (other_methods_leave_store_alone 0
           {| method := "PROPFIND"; url := "https://example.com/public/";
              headers := [] |}
           {| bucket := Fixtures.two_pages |} []);
    [reflexivity|discriminate|discriminate].
Defined.

(** X8. Through the whole gateway, a HEAD request makes the store calls of
    the GET request and its response has the same status, status text and
    headers; it has no body when the request passes the gate, while the
    401 of the gate keeps its body also for HEAD.  Where the GET request
    is rejected or does not end, so is the HEAD request. *)
Theorem fetch_head_follows_get fuel request env log :
  match fetch fuel (with_method "GET" request) env log with
  | Returned get_response log' =>
      exists head_response,
        fetch fuel (with_method "HEAD" request) env log
        = Returned head_response log'
        /\ status head_response = status get_response
        /\ statusText head_response = statusText get_response
        /\ resp_headers head_response = resp_headers get_response
        /\ resp_body head_response
           = if is_public_path (URL.pathname (url request))
             then None else Some "Unauthorized"
  | Threw log' => fetch fuel (with_method "HEAD" request) env log = Threw log'
  | OutOfFuel => fetch fuel (with_method "HEAD" request) env log = OutOfFuel
  end.
Proof.
  rewrite !fetch_cases. cbn [method url with_method].
  destruct (is_public_path (URL.pathname (url request))); cbn [negb].
  - change (String.eqb "HEAD" "OPTIONS") with false.
    change (String.eqb "HEAD" "HEAD") with true.
    change (String.eqb "GET" "OPTIONS") with false.
    change (String.eqb "GET" "HEAD") with false.
    change (String.eqb "GET" "GET") with true.
    cbn iota. unfold fmap, IO_fmap. rewrite !handle_get_ignores_method.
    destruct (handle_get fuel request (bucket env) log)
      as [response log'|log'|]; [|reflexivity..].
    exists (without_body response). now repeat split.
  - exists unauthorized. now repeat split.
Qed.

(** A HEAD outside the public folder: the 401 of the gate, body included. *)
Example head_outside_public :
  fetch 0 {| method := "HEAD"; url := "https://example.com/file.txt";
             headers := [] |}
        {| bucket := Fixtures.two_pages |} []
  = Returned {| resp_body := Some "Unauthorized"; status := 401;
                statusText := ""; resp_headers := [] |} [].
Proof. reflexivity. Qed.

(** ** Confinement to the public folder *)

Lemma public_resource_path request :
  is_public_path (URL.pathname (url request)) = true ->
  under_public (make_resource_path request).
Proof.
  unfold is_public_path, JS.startsWith, JS.str_eq, make_resource_path.
  intros [Hin | Hroot]%orb_true_iff.
  - destruct (prefix_split _ _ Hin) as [t ->].
    change (JS.slice_from 1 ("/public/" ++ t)) with ("public/" ++ t).
    destruct (JS.endsWith ("public/" ++ t) "/").
    + destruct t as [|c t]; [now left|]. right.
      rewrite slice_but_last_app by discriminate. apply prefix_app_l.
    + right. apply prefix_app_l.
  - apply String.eqb_eq in Hroot. rewrite Hroot. now left.
Qed.

Lemma public_directory_prefix request :
  under_public (make_resource_path request) ->
  JS.startsWith (directory_prefix request) "public/" = true.
Proof.
  unfold directory_prefix, under_public, JS.startsWith.
  intros [-> | Hin]; [reflexivity|].
  destruct (prefix_split _ _ Hin) as [t ->].
  change (String.eqb ("public/" ++ t) "") with false. cbn iota.
  rewrite string_app_assoc. apply prefix_app_l.
Qed.

(** X9. Whatever the request and whatever the store answers, every store
    call the gateway makes stays inside the public folder: a [get] asks
    for the key [public] or a key under [public/], a [list] for a prefix
    under [public/]. *)
Theorem fetch_reads_only_public fuel request env log log' :
  log_of (fetch fuel request env log) = Some log' ->
  exists calls,
    log' = (log ++ calls)%list /\ Forall reads_public calls.
Proof.
  rewrite fetch_cases.
  assert (Hnone : Some log = Some log' ->
                  exists calls, log' = (log ++ calls)%list
                                /\ Forall reads_public calls).
  { intros [= <-]. exists []. now rewrite app_nil_r. }
  destruct (is_public_path (URL.pathname (url request))) eqn:Hgate;
    cbn [negb]; [|exact Hnone].
  assert (Hget : forall log'',
             log_of (handle_get fuel request (bucket env) log) = Some log'' ->
             exists calls, log'' = (log ++ calls)%list
                           /\ Forall reads_public calls).
  { intros log'' Hrun.
    destruct (handle_get_calls fuel request (bucket env) log log'' Hrun)
      as (calls & -> & Hcalls).
    exists calls. split; [reflexivity|].
    pose proof (public_resource_path request Hgate) as Hkey.
    destruct (JS.endsWith (url request) "/").
    - eapply Forall_impl; [exact Hcalls|].
      intros call [cur ->]. cbn. now apply public_directory_prefix.
    - subst calls. constructor; [exact Hkey|constructor]. }
  destruct (String.eqb (method request) "OPTIONS"); [exact Hnone|].
  destruct (String.eqb (method request) "HEAD").
  { intros Hrun. apply Hget. unfold fmap, IO_fmap in Hrun.
    now destruct (handle_get fuel request (bucket env) log). }
  destruct (String.eqb (method request) "GET"); [apply Hget|exact Hnone].
Qed.

Lemma fetch_reads_only_public_witness :
  exists calls,
    [CallList (list_options "public/b/" false None);
     CallList (list_options "public/b/" false (Some "c1"))] = ([] ++ calls)%list
    /\ Forall reads_public calls.
Proof.
  apply (fetch_reads_only_public 4
           (Fixtures.get_request "https://example.com/public/b/")
           {| bucket := Fixtures.two_pages |} []).
  reflexivity.
Defined.

(** ** The object fetch, continued *)

(** X10. A request whose URL does not end in a slash costs exactly one
    store call, a [get] of the resource path with the request headers as
    both the condition and the range; and the status of the response
    tells what the store answered: 404 for no object, 412 for an object
    without a body, 200 or 206 for an object with one. *)
Theorem object_status_tells_reply fuel request b log response log' :
  JS.endsWith (url request) "/" = false ->
  handle_get fuel request b log = Returned response log' ->
  let reply := get_reply b log (make_resource_path request)
                 {| onlyIf := headers request; opt_range := headers request |} in
  log' = (log ++ [CallGet (make_resource_path request)
                    {| onlyIf := headers request;
                       opt_range := headers request |}])%list
  /\ (status response = 404 <-> reply = Some None)
  /\ (status response = 412
      <-> exists object, reply = Some (Some object) /\ body object = None)
  /\ (status response = 200 \/ status response = 206
      <-> exists object stream,
            reply = Some (Some object) /\ body object = Some stream).
Proof.
  intros Hurl. rewrite (handle_get_object_cases fuel request b log Hurl).
  cbn zeta. fold (get_options request).
  destruct (get_reply b log (make_resource_path request) (get_options request))
    as [[object|]|]; [destruct (body object) as [stream|] eqn:Hbody|..];
    intros [= <- <-]; cbn [status];
    try destruct (_ && _)%bool;
    (split; [reflexivity|]); (split; [|split]); split; intros H;
    first [ discriminate H
          | destruct H as (o & Heq & Hb); congruence
          | destruct H as (o & s & Heq & Hb); congruence
          | destruct H as [H|H]; discriminate H
          | eauto ].
Qed.

Lemma object_status_tells_reply_witness :
  get_reply Fixtures.two_pages [] "public/missing"
            {| onlyIf := []; opt_range := [] |} = Some None.
Proof.
  apply (object_status_tells_reply 0
           (Fixtures.get_request "https://example.com/public/missing")
           Fixtures.two_pages []
           {| resp_body := Some "Not Found"; status := 404;
              statusText := ""; resp_headers := [] |}
           [CallGet "public/missing" {| onlyIf := []; opt_range := [] |}]
           eq_refl eq_refl).
  reflexivity.
Defined.

Lemma in_optional_header (name : string) (value : option string) (n v : string) :
  In (n, v) (optional_header name value)
  <-> n = name /\ value = Some v /\ v <> "".
Proof.
  unfold optional_header, JS.truthy.
  destruct value as [s|]; cbn [negb default].
  - destruct (String.eqb_spec s "") as [->|Hs]; cbn.
    + split; [contradiction|]. intros (_ & [= <-] & Hv). now apply Hv.
    + split.
      * intros [[= <- <-]|[]]. auto.
      * intros (-> & [= ->] & _). now left.
  - cbn. split; [contradiction|]. intros (_ & [=] & _).
Qed.

(** X11. The headers of the response to a fetched object: Content-Type
    (from the metadata, else [application/octet-stream]), Content-Length
    and Content-Range are always there; Content-Disposition,
    Content-Encoding, Content-Language and Cache-Control are there exactly
    when the metadata has a non-empty value for them, Cache-Expiry when
    the metadata has an expiry; and no header name occurs twice. *)
Theorem fetched_object_headers fuel request b log object stream :
  JS.endsWith (url request) "/" = false ->
  get_reply b log (make_resource_path request) (get_options request)
    = Some (Some object) ->
  body object = Some stream ->
  exists response,
    handle_get fuel request b log
    = Returned response
        (log ++ [CallGet (make_resource_path request) (get_options request)])
    /\ resp_body response = Some stream
    /\ (forall name v,
           In (name, v) (resp_headers response) <-> header_due object name v)
    /\ NoDup (map fst (resp_headers response)).
Proof.
  intros Hurl Hget Hbody.
  rewrite (handle_get_object_cases fuel request b log Hurl). cbn zeta.
  rewrite Hget, Hbody. eexists. split; [reflexivity|].
  split; [reflexivity|]. cbn [resp_headers]. split.
  - intros name v. unfold object_headers, header_due. cbn zeta.
    rewrite !in_app_iff, !in_optional_header. cbn [In].
    destruct (httpMetadata object ≫= cacheExpiry) as [d|]; cbn [In].
    + split.
      * intros [[[= <- <-]|[[= <- <-]|[[= <- <-]|[]]]]
               |[H|[H|[H|[H|[[= <- <-]|[]]]]]]]; eauto 12.
      * intros [[-> ->]|[[-> ->]|[[-> ->]|[H|[H|[H|[H|[-> (d' & [= <-] & ->)]]]]]]]];
          eauto 12.
    + split.
      * intros [[[= <- <-]|[[= <- <-]|[[= <- <-]|[]]]]
               |[H|[H|[H|[H|[]]]]]]; eauto 12.
      * intros [[-> ->]|[[-> ->]|[[-> ->]|[H|[H|[H|[H|[_ (d' & [=] & _)]]]]]]]];
          eauto 12.
  - unfold object_headers, optional_header. cbn zeta.
    destruct (JS.truthy (httpMetadata object ≫= contentDisposition)),
             (JS.truthy (httpMetadata object ≫= contentEncoding)),
             (JS.truthy (httpMetadata object ≫= contentLanguage)),
             (JS.truthy (httpMetadata object ≫= cacheControl)),
             (httpMetadata object ≫= cacheExpiry);
      cbn [app map fst];
      (eapply bool_decide_unpack with (dec := NoDup_dec _));
      vm_compute; exact I.
Qed.

Lemma fetched_object_headers_witness :
  exists response,
    handle_get 0 (Fixtures.get_request "https://example.com/public/a.txt")
               Fixtures.two_pages []
    = Returned response
        [CallGet "public/a.txt" {| onlyIf := []; opt_range := [] |}]
    /\ resp_body response = Some "abc"
    /\ In ("Content-Range", "bytes 0-99/100") (resp_headers response)
    /\ ~ In ("Content-Disposition", "") (resp_headers response).
Proof.
  destruct (fetched_object_headers 0
              (Fixtures.get_request "https://example.com/public/a.txt")
              Fixtures.two_pages []
              (Fixtures.fetched "public/a.txt" 100
                 (Some (RangeOffsetLength (Some 0) (Some 100))) "abc")
              "abc" eq_refl eq_refl eq_refl)
    as (response & Hrun & Hbody & Hheaders & _).
  exists response. split; [exact Hrun|]. split; [exact Hbody|]. split.
  - apply Hheaders. right. right. left. split; reflexivity.
  - intros Hin. apply Hheaders in Hin.
    destruct Hin as [[[=] _]|[[[=] _]|[[[=] _]|[(_ & _ & Hne)|[[[=] _]|
                    [[[=] _]|[[[=] _]|[[=] _]]]]]]]].
    now apply Hne.
Defined.

(** ** The Directory Renderer, continued *)

(** X12. An entry listed under the prefix is linked under its name relative
    to the directory, unless its metadata has a content disposition, which
    is then the link text (even when empty). *)
Theorem link_text_is_relative_name (resource_path prefix page name : string)
    (entry : R2Object) :
  key entry = prefix ++ name ->
  key entry <> resource_path ->
  page_step resource_path prefix page entry
  = page ++ "<a href=" ++ dq
         ++ ("/" ++ key entry ++ (if is_collection entry then "/" else ""))
         ++ dq ++ ">"
         ++ default name (httpMetadata entry ≫= contentDisposition)
         ++ "</a><br>".
Proof.
  intros Hkey Hother. unfold page_step, JS.str_eq.
  apply String.eqb_neq in Hother. rewrite Hother.
  now rewrite Hkey, slice_from_app.
Qed.

Lemma link_text_is_relative_name_witness :
  page_step "public" "public/" "" (Fixtures.collection "public/photos")
  = "<a href=" ++ dq ++ "/public/photos/" ++ dq ++ ">photos</a><br>".
Proof.
  apply (link_text_is_relative_name "public" "public/" "" "photos"
           (Fixtures.collection "public/photos"));
    [reflexivity|discriminate].
Defined.

Lemma filter_keeps_all {A : Type} (P : A -> Prop) `{forall x, Decision (P x)}
    (l : list A) :
  Forall P l -> filter P l = l.
Proof.
  induction 1 as [|x l Hx _ IH]; [reflexivity|].
  rewrite filter_cons_True by assumption. now rewrite IH.
Qed.

Lemma key_under_prefix_is_not_directory (request : Request) (k : string) :
  k <> "" ->
  JS.startsWith k (directory_prefix request) = true ->
  k <> make_resource_path request.
Proof.
  unfold directory_prefix, JS.startsWith. intros Hk Hunder Heq.
  destruct (String.eqb_spec (make_resource_path request) "") as [Hroot|_].
  - congruence.
  - destruct (prefix_split _ _ Hunder) as [t Ht].
    rewrite string_app_assoc, <- Heq in Ht.
    rewrite <- (string_app_nil_r k) in Ht at 1.
    apply String.app_inj in Ht. discriminate Ht.
Qed.

(** X13. When the store keeps to the prefix it was asked for (every listed
    key is non-empty and starts with the prefix of the directory), the
    test that skips the entry named like the directory never fires: every
    entry of the enumeration is linked, in order. *)
Theorem directory_links_every_entry fuel request b log entries log' :
  JS.endsWith (url request) "/" = true ->
  listAll fuel b (directory_prefix request) false log = Returned entries log' ->
  Forall (fun e => key e <> ""
                   /\ JS.startsWith (key e) (directory_prefix request) = true)
         entries ->
  handle_get fuel request b log
  = Returned
      (html_response
         (directory_head request
          ++ concat_strings
               (map render_link
                  (map (entry_link (directory_prefix request)) entries))))
      log'.
Proof.
  intros Hurl Hlist Hunder.
  rewrite (handle_get_directory_branch fuel request b Hurl log), Hlist.
  rewrite fold_page_step. rewrite filter_keeps_all; [reflexivity|].
  eapply Forall_impl; [exact Hunder|].
  intros e [Hk Hp]. now apply key_under_prefix_is_not_directory.
Qed.

Lemma directory_links_every_entry_witness :
  handle_get 1 (Fixtures.get_request "https://example.com/public/")
    (scripted [{| objects := [Fixtures.file "public/a.txt" 3;
                              Fixtures.collection "public/b"];
                  truncated := false; cursor := None |}]) []
  = Returned
      (html_response
         (parent_link
          ++ render_link {| href := "/public/a.txt"; text := "a.txt" |}
          ++ render_link {| href := "/public/b/"; text := "b" |}))
      [CallList (list_options "public/" false None)].
Proof.
  apply (directory_links_every_entry 1
           (Fixtures.get_request "https://example.com/public/")
           (scripted [{| objects := [Fixtures.file "public/a.txt" 3;
                                     Fixtures.collection "public/b"];
                         truncated := false; cursor := None |}]) []
           [Fixtures.file "public/a.txt" 3; Fixtures.collection "public/b"]).
  - reflexivity.
  - reflexivity.
  - repeat constructor; discriminate.
Defined.

(** X14. A request whose URL ends in a slash never calls [get]: whether the
    listing succeeds or is rejected, the store only sees list calls, at
    least one, all for the prefix of the directory and with the delimiter
    [/] (no recursion into sub-directories). *)
Theorem directory_request_only_lists fuel request b log log' :
  JS.endsWith (url request) "/" = true ->
  log_of (handle_get fuel request b log) = Some log' ->
  exists calls,
    log' = (log ++ calls)%list
    /\ calls <> []
    /\ Forall (fun call =>
                 exists cur,
                   call = CallList {| opt_prefix := directory_prefix request;
                                      opt_delimiter := Some "/";
                                      opt_cursor := cur;
                                      opt_include := ["httpMetadata";
                                                      "customMetadata"] |})
              calls.
Proof.
  intros Hurl.
  rewrite (handle_get_directory_branch fuel request b Hurl log).
  intros Hrun.
  destruct (listAll_from_calls b (directory_prefix request) false fuel
              None log log') as (calls & -> & Hall & Hlen).
  - unfold listAll in Hrun.
    now destruct (listAll_from fuel b (directory_prefix request) false None log).
  - exists calls. split; [reflexivity|]. split; [|exact Hall].
    intros ->. cbn in Hlen. lia.
Qed.

Lemma directory_request_only_lists_witness :
  exists calls,
    [CallList (list_options "public/" false None);
     CallList (list_options "public/" false (Some "c1"))] = ([] ++ calls)%list
    /\ calls <> []
    /\ Forall (fun call =>
                 exists cur,
                   call = CallList {| opt_prefix := "public/";
                                      opt_delimiter := Some "/";
                                      opt_cursor := cur;
                                      opt_include := ["httpMetadata";
                                                      "customMetadata"] |})
              calls.
Proof.
  apply (directory_request_only_lists 2
           (Fixtures.get_request "https://example.com/public/")
           (scripted [Fixtures.page1]) []);
    reflexivity.
Defined.

(** X15. For a non-empty object and a window that starts inside it and is
    at least one byte long, the content length lies between 1 and the
    object size, and the response is 200 exactly when the window is the
    whole object, 206 exactly when it leaves out a byte at either end. *)
Theorem window_inside_status fuel request b log object stream :
  JS.endsWith (url request) "/" = false ->
  get_reply b log (make_resource_path request) (get_options request)
    = Some (Some object) ->
  body object = Some stream ->
  window_inside (size object) (range object) ->
  exists response,
    handle_get fuel request b log
    = Returned response
        (log ++ [CallGet (make_resource_path request) (get_options request)])
    /\ let r := calcContentRange object in
       1 <= rangeEnd r - rangeOffset r + 1 <= size object
       /\ (status response = 200
           <-> rangeOffset r = 0 /\ rangeEnd r = size object - 1)
       /\ (status response = 206
           <-> 0 < rangeOffset r \/ rangeEnd r < size object - 1).
Proof.
  intros Hurl Hget Hbody Hwin.
  rewrite (handle_get_object_cases fuel request b log Hurl). cbn zeta.
  rewrite Hget, Hbody. eexists. split; [reflexivity|]. cbn [status].
  unfold window_inside in Hwin. destruct Hwin as [Hsize Hwin].
  destruct (range object) as [[k|offset len]|] eqn:Hrange.
  - rewrite (resolved_suffix object k Hrange). cbn [rangeOffset rangeEnd].
    rewrite bool_decide_eq_true_2 by eauto. cbn [andb].
    destruct (Z.eqb_spec (size object - 1 - (size object - k) + 1) (size object));
      cbn [negb]; lia.
  - rewrite (resolved_window object offset len Hrange).
    cbn [rangeOffset rangeEnd].
    rewrite bool_decide_eq_true_2 by eauto. cbn [andb].
    destruct Hwin as [Hstart Hlen].
    assert (Hlen' : 1 <= default (size object - default 0 offset) len).
    { destruct len as [n|]; cbn [default]; [now apply Hlen|lia]. }
    destruct (Z.eqb_spec
                (Z.min (default 0 offset
                        + default (size object - default 0 offset) len - 1)
                       (size object - 1) - default 0 offset + 1)
                (size object)); cbn [negb]; lia.
  - rewrite (resolved_absent object Hrange). cbn [rangeOffset rangeEnd].
    rewrite bool_decide_eq_false_2 by (intros [? [=]]). cbn [andb]. lia.
Qed.

Lemma window_inside_status_witness :
  exists response,
    handle_get 0 (Fixtures.get_request "https://example.com/public/a.txt")
               Fixtures.two_pages []
    = Returned response
        [CallGet "public/a.txt" {| onlyIf := []; opt_range := [] |}]
    /\ status response = 200.
Proof.
  destruct (window_inside_status 0
              (Fixtures.get_request "https://example.com/public/a.txt")
              Fixtures.two_pages []
              (Fixtures.fetched "public/a.txt" 100
                 (Some (RangeOffsetLength (Some 0) (Some 100))) "abc")
              "abc" eq_refl eq_refl eq_refl)
    as (response & Hrun & _ & Hfull & _).
  - unfold window_inside. cbn. split; [lia|]. split; [lia|].
    intros n [= <-]. lia.
  - exists response. split; [exact Hrun|]. apply Hfull. split; reflexivity.
Defined.
